(** * prepare_isoform_data: interval records for gene isoforms

    A shallow embedding of [prepare_isoform_data.py] and the proofs of its
    specification.  Python integers are [Z], Python strings are [string] (a
    character stands for a code point below 256), Python lists and tuples
    are [list].  A Python call that can raise is a
    function into [result]; the exceptions that the modelled code can raise
    are the constructors of [exn]. *)

From Stdlib Require Import ZArith NArith List String Ascii Bool Lia.
From Stdlib Require Import Sorting.Sorted Sorting.Permutation.
From Stdlib Require Import DecimalString DecimalPos DecimalZ.
Import ListNotations.

Local Open Scope string_scope.
Local Open Scope list_scope.
Local Open Scope Z_scope.

(** ** Exceptions *)

Inductive exn : Type :=
| IndexError
| ValueError
| AssertionError (msg : option string).

Inductive result (A : Type) : Type :=
| Ok (a : A)
| Raise (e : exn).

Arguments Ok {A} a.
Arguments Raise {A} e.

Definition bind {A B : Type} (m : result A) (k : A -> result B) : result B :=
  match m with
  | Ok a => k a
  | Raise e => Raise e
  end.

Notation "x <- m ;; k" := (bind m (fun x => k))
  (at level 61, m at next level, right associativity).

(** [assert cond, msg] *)
Definition assert (cond : bool) (msg : option string) : result unit :=
  if cond then Ok tt else Raise (AssertionError msg).

(** A [for] loop whose body may raise, threading the loop state. *)
Fixpoint for_each {A S : Type} (body : S -> A -> result S) (xs : list A) (s : S)
  : result S :=
  match xs with
  | [] => Ok s
  | x :: xs' => s' <- body s x ;; for_each body xs' s'
  end.

(** Applying to each element, in order, a function that may raise:
    [list(map(f, xs))], and the conversion of every argument by [print]. *)
Fixpoint map_result {A B : Type} (f : A -> result B) (xs : list A)
  : result (list B) :=
  match xs with
  | [] => Ok []
  | x :: xs' => y <- f x ;; ys <- map_result f xs' ;; Ok (y :: ys)
  end.

(** ** Integers as text

    The interpreter converts between [int] and [str] only up to
    [sys.get_int_max_str_digits()] decimal digits, 4300 unless the limit is
    changed, which this program does not do; beyond it [int(s)] and
    [str(n)] raise [ValueError]. *)

Definition digit_of (c : ascii) : option Z :=
  let n := Z.of_nat (nat_of_ascii c) in
  if (48 <=? n) && (n <=? 57) then Some (n - 48) else None.

Definition int_max_str_digits : nat := 4300.

(** The number of decimal digits among the characters of [s]. *)
Fixpoint count_digits (s : string) : nat :=
  match s with
  | EmptyString => O
  | String c s' =>
      ((match digit_of c with Some _ => 1 | None => 0 end)
       + count_digits s')%nat
  end.

(** ** Regions

    The tuples [(chr, start, end, strand)] handed to [Bed]. *)

Record Region : Type := mkRegion {
  r_chr : string;
  r_start : Z;
  r_end : Z;
  r_strand : string
}.

(** [len(set(xs)) == 1] *)
Definition len_set_is_1 (xs : list string) : bool :=
  Nat.eqb (List.length (nodup string_dec xs)) 1.

Module Bed.

(** [_region = namedtuple('Region', ('start', 'end'))] *)
Record _region : Type := mk_region { start_ : Z; end__ : Z }.

Record t : Type := mk {
  regions : list Region;
  name : string;
  union : bool;
  chrom : string;
  start : Z;
  end_ : Z;
  strand : string;
  block_count : Z;
  block_sizes : list Z;
  block_starts : list Z
}.

Definition reverse_regions_if_minus_strand (regions : list Region)
  : result (list Region) :=
  match regions with
  | [] => Raise IndexError
  | r0 :: _ =>
      if String.eqb (r_strand r0) "-" then Ok (rev regions) else Ok regions
  end.

(** [_parse_region] assigns every block attribute of [self]; the three
    attributes set earlier by [__init__] are passed along. *)
Definition _parse_region (regions : list Region) (name : string) (union : bool)
           (region : Region) : t :=
  let start := r_start region - 1 in
  let end_ := r_end region in
  {| regions := regions; name := name; union := union;
     chrom := r_chr region;
     start := start;
     end_ := end_;
     strand := r_strand region;
     block_count := 1;
     block_sizes := [end_ - start];
     block_starts := [0] |}.

(** [Bed([region])], the nested construction in [_add_block]: the raw path
    on a one-element list, whose loop over [regions[1:]] is empty.
    [Bed_singleton] below shows that it is [__init__] at that list. *)
Definition single (region : Region) : result t :=
  regions <- reverse_regions_if_minus_strand [region] ;;
  match regions with
  | [] => Raise IndexError
  | r0 :: _ => Ok (_parse_region regions "." false r0)
  end.

Definition _add_block (self : t) (region : Region) : result t :=
  other <- single region ;;
  _ <- assert (String.eqb (strand self) (strand other)) None ;;
  let block_count := block_count self + block_count other in
  let block_sizes := block_sizes self ++ block_sizes other in
  let all_starts :=
    map (fun start0 => start0 + start self) (block_starts self)
        ++ [start other] in
  let start := if start other <? start self then start other else start self in
  let block_starts := map (fun start0 => start0 - start) all_starts in
  let end_ := if end_ other >? end_ self then end_ other else end_ self in
  Ok {| regions := regions self; name := name self; union := union self;
        chrom := chrom self;
        start := start;
        end_ := end_;
        strand := strand self;
        block_count := block_count;
        block_sizes := block_sizes;
        block_starts := block_starts |}.

Definition _parse_regions (self_regions : list Region) (name : string)
           (union : bool) (regions : list Region) : result t :=
  match regions with
  | [] => Raise IndexError
  | r0 :: rest =>
      for_each _add_block rest (_parse_region self_regions name union r0)
  end.

(** [sorted(..., key=lambda r: r.start)]: Python's sort is stable, and so is
    this insertion sort, which puts an element before the first later
    element whose key is not smaller. *)
Fixpoint insert_by_start (r : _region) (l : list _region) : list _region :=
  match l with
  | [] => [r]
  | r' :: l' =>
      if start_ r <=? start_ r' then r :: l else r' :: insert_by_start r l'
  end.

Fixpoint sorted_by_start (l : list _region) : list _region :=
  match l with
  | [] => []
  | r :: l' => insert_by_start r (sorted_by_start l')
  end.

(** The [for r2 in regions[1:]] loop with its [else] clause: the loop has
    no [break], so the final [append] always runs. *)
Fixpoint sweep (r1 : _region) (rest : list _region)
         (union_regions : list _region) : list _region :=
  match rest with
  | [] => union_regions ++ [r1]
  | r2 :: rest' =>
      if end__ r1 <? start_ r2 then
        sweep r2 rest' (union_regions ++ [r1])
      else if end__ r1 <? end__ r2 then
        sweep (mk_region (start_ r1) (end__ r2)) rest' union_regions
      else
        sweep r1 rest' union_regions
  end.

Definition get_union_regions (regions : list Region)
  : result (list Region) :=
  _ <- assert (len_set_is_1 (map r_chr regions))
         (Some "Not all regions in the same chromosome!") ;;
  _ <- assert (len_set_is_1 (map r_strand regions))
         (Some "Not all regions at the same strand!") ;;
  match regions with
  | [] => Raise IndexError
  | r0 :: _ =>
      let chr_ := r_chr r0 in
      let strand := r_strand r0 in
      let regions :=
        sorted_by_start
          (map (fun r => mk_region (r_start r) (r_end r)) regions) in
      match regions with
      | [] => Raise IndexError
      | r1 :: rest =>
          let union_regions := sweep r1 rest [] in
          Ok (map (fun r => mkRegion chr_ (start_ r) (end__ r) strand)
                  union_regions)
      end
  end.

Definition __init__ (regions : list Region) (name : string) (union : bool)
  : result t :=
  regions <- (if negb union
              then reverse_regions_if_minus_strand regions
              else get_union_regions regions) ;;
  _parse_regions regions name union regions.

(** Output fields: [print] applies [str] to each. *)
Inductive field : Type :=
| FStr (s : string)
| FInt (n : Z).

Definition str (f : field) : result string :=
  match f with
  | FStr s => Ok s
  | FInt n =>
      let s := NilZero.string_of_int (Z.to_int n) in
      if Nat.leb (count_digits s) int_max_str_digits then Ok s
      else Raise ValueError
  end.

Definition _list_to_str (list_ : list field) (sep : string) : result string :=
  strs <- map_result str list_ ;;
  Ok (String.concat sep strs).

Definition get_data (self : t) (all_fields : bool) : result (list field) :=
  let fields :=
    [FStr (chrom self); FInt (start self); FInt (end_ self);
     FStr (name self); FStr "."; FStr (strand self)] in
  if all_fields then
    block_sizes_txt <- _list_to_str (map FInt (block_sizes self)) "," ;;
    block_starts_txt <- _list_to_str (map FInt (block_starts self)) "," ;;
    Ok (fields ++
        [FInt (start self); FInt (end_ self); FInt 0; FInt (block_count self);
         FStr block_sizes_txt;
         FStr block_starts_txt])
  else Ok fields.

Definition to_string (self : t) (all_fields : bool) : result string :=
  data <- get_data self all_fields ;;
  _list_to_str data (String (ascii_of_nat 9) EmptyString).

End Bed.

(** ** Isoforms *)

Record Isoform : Type := mkIsoform {
  chr_ : string;
  starts : list Z;
  ends : list Z;
  strand : string
}.

(** [s.split(sep)] for a one-character separator. *)
Fixpoint split (sep : ascii) (s : string) : list string :=
  match s with
  | EmptyString => [EmptyString]
  | String c s' =>
      if Ascii.eqb c sep then EmptyString :: split sep s'
      else match split sep s' with
           | [] => [String c EmptyString]
           | w :: ws => String c w :: ws
           end
  end.

(** [int(s)]: surrounding white space is dropped (tab, line feed, vertical
    tab, form feed, carriage return, space, and the two white-space code
    points above 127 and below 256, next line and no-break space), one sign
    is allowed, and the digits may be separated by single underscores; the
    only decimal digits below code point 256 are [0] to [9].  A text with
    more than [int_max_str_digits] digits raises [ValueError], as a text
    that is no integer does. *)
Definition is_space (c : ascii) : bool :=
  let n := nat_of_ascii c in
  (Nat.leb 9 n && Nat.leb n 13) || Nat.eqb n 32
  || Nat.eqb n 133 || Nat.eqb n 160.

Fixpoint lstrip (s : string) : string :=
  match s with
  | EmptyString => EmptyString
  | String c s' => if is_space c then lstrip s' else s
  end.

Fixpoint rstrip (s : string) : string :=
  match s with
  | EmptyString => EmptyString
  | String c s' =>
      match rstrip s' with
      | EmptyString => if is_space c then EmptyString else String c EmptyString
      | t => String c t
      end
  end.

Fixpoint digits (s : string) (acc : Z) (after_digit : bool) : option Z :=
  match s with
  | EmptyString => if after_digit then Some acc else None
  | String c s' =>
      match digit_of c with
      | Some d => digits s' (10 * acc + d) true
      | None =>
          if Ascii.eqb c "_" && after_digit then digits s' acc false else None
      end
  end.

Definition int (s : string) : result Z :=
  let text := lstrip (rstrip s) in
  let body :=
    match text with
    | String "+" s' => digits s' 0 false
    | String "-" s' => option_map Z.opp (digits s' 0 false)
    | s' => digits s' 0 false
    end in
  match body with
  | Some n =>
      if Nat.leb (count_digits text) int_max_str_digits then Ok n
      else Raise ValueError
  | None => Raise ValueError
  end.

Definition parse_isoform_data (isoform_string : string) : result Isoform :=
  match split "|" isoform_string with
  | [chr_; starts; ends; strand] =>
      starts <- map_result int (split "," starts) ;;
      ends <- map_result int (split "," ends) ;;
      Ok (mkIsoform chr_ starts ends strand)
  | _ => Raise ValueError
  end.

(** The tuples built by the list comprehension of [output_isoform_as_bed]. *)
Definition exon_regions (isoform : Isoform) : list Region :=
  map (fun '(start, end_) => mkRegion (chr_ isoform) start end_ (strand isoform))
      (combine (starts isoform) (ends isoform)).

Definition output_isoform_as_bed (isoform : Isoform) (isoform_name : string)
  : result Bed.t :=
  _ <- assert (Nat.eqb (List.length (starts isoform))
                       (List.length (ends isoform))) None ;;
  _ <- assert (forallb (fun '(i, j) => i <=? j)
                       (combine (starts isoform) (ends isoform))) None ;;
  Bed.__init__ (exon_regions isoform) isoform_name true.

(** ** The main loop, one input line at a time *)

(** [s.rstrip('\n')] *)
Fixpoint rstrip_newline (s : string) : string :=
  match s with
  | EmptyString => EmptyString
  | String c s' =>
      match rstrip_newline s' with
      | EmptyString =>
          if Ascii.eqb c (ascii_of_nat 10) then EmptyString
          else String c EmptyString
      | t => String c t
      end
  end.

Definition sum (l : list Z) : Z := fold_left Z.add l 0.

(** What one line of the isoform file contributes when the body of the loop
    runs to its end: the Bed object, the line printed to [isoforms.bed] and
    the two values printed as a row of [isoforms.length.tsv]. *)
Record line_output : Type := mkLineOutput {
  isoform_bed : Bed.t;
  bed_out : string;
  bed_len_out : string * Z
}.

(** The body of the loop.  Both [print] calls convert their integers with
    [str]; where the second one raises, the line of [isoforms.bed] has
    been written already. *)
Definition main_isoform (isoform_string : string) : result line_output :=
  let isoform_string := rstrip_newline isoform_string in
  isoform_data <- parse_isoform_data isoform_string ;;
  isoform_bed <- output_isoform_as_bed isoform_data isoform_string ;;
  bed_txt <- Bed.to_string isoform_bed true ;;
  let total_len := sum (Bed.block_sizes isoform_bed) in
  _ <- Bed._list_to_str [Bed.FStr isoform_string; Bed.FInt total_len]
         (String (ascii_of_nat 9) EmptyString) ;;
  Ok (mkLineOutput isoform_bed bed_txt (isoform_string, total_len)).

(** ** Sequences *)

(** The slice [s[:n]] for [n >= 0]. *)
Fixpoint slice_to (n : nat) (s : string) : string :=
  match n, s with
  | O, _ => EmptyString
  | S _, EmptyString => EmptyString
  | S n', String c s' => String c (slice_to n' s')
  end.

(** The line written to [isoforms.ext.fa] for the sequence [fa_seq]. *)
Definition seq_ext_out (fa_seq : string) : string :=
  String.append fa_seq (slice_to 30 fa_seq).

(** ** Reading the extracted sequences

    [get_fasta] runs the external tool and then reads its output file line
    by line; what is modelled is the treatment of one line. *)

Definition TAB : ascii := ascii_of_nat 9.
Definition LF : ascii := ascii_of_nat 10.

(** Whether [\([+-]\)$] matches the whole of [s], and what is left of [s]
    after the match: [$] matches at the end of the string and just before a
    newline that ends the string. *)
Definition strand_suffix (s : string) : option string :=
  if String.eqb s "(+)" || String.eqb s "(-)" then Some EmptyString
  else if String.eqb s (String.append "(+)" (String LF EmptyString))
          || String.eqb s (String.append "(-)" (String LF EmptyString))
  then Some (String LF EmptyString)
  else None.

(** [re.sub(r'\([+-]\)$', '', name)]: the scan for the leftmost match. *)
Fixpoint sub_strand (name : string) : string :=
  match name with
  | EmptyString => EmptyString
  | String c rest =>
      match strand_suffix name with
      | Some remainder => remainder
      | None => String c (sub_strand rest)
      end
  end.

(** Whether [.*$] matches from the start of [s], and what is left of [s]
    after the match: [.] matches no newline. *)
Fixpoint dot_star_end (s : string) : option string :=
  match s with
  | EmptyString => Some EmptyString
  | String c s' =>
      if Ascii.eqb c LF then
        match s' with
        | EmptyString => Some (String LF EmptyString)
        | String _ _ => None
        end
      else dot_star_end s'
  end.

(** [re.sub(r'::.*$', '', name)] *)
Fixpoint sub_coords (name : string) : string :=
  match name with
  | EmptyString => EmptyString
  | String c rest =>
      match (match name with
             | String ":" (String ":" tail) => dot_star_end tail
             | _ => None
             end) with
      | Some remainder => remainder
      | None => String c (sub_coords rest)
      end
  end.

(** The pair that [get_fasta] yields for one line of the tool's output. *)
Definition get_fasta_line (line : string) : result (string * string) :=
  match split TAB (rstrip_newline line) with
  | [name; fa_seq] => Ok (sub_coords (sub_strand name), fa_seq)
  | _ => Raise ValueError
  end.

(** ** Notions used in the statements *)

(** The 0-based start of a region and its block size, as [_parse_region]
    computes them. *)
Definition start0 (r : Region) : Z := r_start r - 1.
Definition size (r : Region) : Z := r_end r - start0 r.

(** Least and greatest element of the non-empty list [x :: xs]. *)
Definition minimum (x : Z) (xs : list Z) : Z := fold_left Z.min xs x.
Definition maximum (x : Z) (xs : list Z) : Z := fold_left Z.max xs x.

(** The record that folding [r0 :: rest] arrives at: the envelope is computed
    first and every offset is taken against it. *)
Definition folded (self_regions : list Region) (name : string) (union : bool)
           (r0 : Region) (rest : list Region) : Bed.t :=
  let start := minimum (start0 r0) (map start0 rest) in
  {| Bed.regions := self_regions; Bed.name := name; Bed.union := union;
     Bed.chrom := r_chr r0;
     Bed.start := start;
     Bed.end_ := maximum (r_end r0) (map r_end rest);
     Bed.strand := r_strand r0;
     Bed.block_count := Z.of_nat (List.length (r0 :: rest));
     Bed.block_sizes := map size (r0 :: rest);
     Bed.block_starts := map (fun r => start0 r - start) (r0 :: rest) |}.

(** The tests behind the assertions on strands and chromosomes. *)
Definition same_strand (r0 r : Region) : bool :=
  String.eqb (r_strand r0) (r_strand r).

Definition same_chr (r0 r : Region) : bool :=
  String.eqb (r_chr r0) (r_chr r).

(** The order that [sorted] sorts by. *)
Definition le_start (a b : Bed._region) : Prop := Bed.start_ a <= Bed.start_ b.

(** The candidate after absorbing [r2]. *)
Definition extend (r1 r2 : Bed._region) : Bed._region :=
  Bed.mk_region (Bed.start_ r1) (Z.max (Bed.end__ r1) (Bed.end__ r2)).

(** The regions that the sweep is run on, and its result. *)
Definition merged (regions : list Region) : list Bed._region :=
  match Bed.sorted_by_start
          (map (fun r => Bed.mk_region (r_start r) (r_end r)) regions) with
  | [] => []
  | r1 :: rest => Bed.sweep r1 rest []
  end.

(** The tuple [(chr_, start, end, strand)] built from a merged interval. *)
Definition retag (r0 : Region) (r : Bed._region) : Region :=
  mkRegion (r_chr r0) (Bed.start_ r) (Bed.end__ r) (r_strand r0).

(** The messages of the two assertions of [get_union_regions]. *)
Definition chromosome_message : string :=
  "Not all regions in the same chromosome!".
Definition strand_message : string :=
  "Not all regions at the same strand!".

(** Positions are 0-based: a tuple [(chr, start, end, strand)] becomes the
    half-open interval from [start - 1] to [end], as [_parse_region] has it. *)
Definition cov (r : Bed._region) (p : Z) : Prop :=
  Bed.start_ r - 1 <= p < Bed.end__ r.

Definition covers (r : Region) (p : Z) : Prop :=
  start0 r <= p < r_end r.

Definition covered_by (l : list Region) (p : Z) : Prop :=
  Exists (fun r => covers r p) l.

Definition overlap (a b : Region) : Prop :=
  exists p, covers a p /\ covers b p.

(** [b] starts after [a] ends, and not before [a] starts. *)
Definition follows (a b : Bed._region) : Prop :=
  Bed.end__ a < Bed.start_ b /\ Bed.start_ a <= Bed.start_ b.

(** [cls._region(r[1], r[2])] *)
Definition to_region (r : Region) : Bed._region :=
  Bed.mk_region (r_start r) (r_end r).

(** The two assertions of [output_isoform_as_bed]. *)
Definition valid (isoform : Isoform) : Prop :=
  List.length (starts isoform) = List.length (ends isoform)
  /\ Forall (fun '(i, j) => i <= j) (combine (starts isoform) (ends isoform)).

(** [size] and [overlap] on the intervals of the sweep. *)
Definition rsize (r : Bed._region) : Z := Bed.end__ r - (Bed.start_ r - 1).


(** [c] occurs in [s]; the number of its occurrences. *)
Fixpoint has_char (c : ascii) (s : string) : bool :=
  match s with
  | EmptyString => false
  | String c' s' => Ascii.eqb c' c || has_char c s'
  end.

Fixpoint count_char (c : ascii) (s : string) : nat :=
  match s with
  | EmptyString => O
  | String c' s' => ((if Ascii.eqb c' c then 1 else 0) + count_char c s')%nat
  end.

(** Every character of [s] passes the test [p]. *)
Fixpoint string_forall (p : ascii -> bool) (s : string) : bool :=
  match s with
  | EmptyString => true
  | String c s' => p c && string_forall p s'
  end.

Definition is_digit (c : ascii) : bool :=
  match digit_of c with
  | Some _ => true
  | None => false
  end.

(** The positions that an interval of the sweep covers, in ascending order. *)
Definition positions (r : Bed._region) : list Z :=
  map (fun i => Bed.start_ r - 1 + Z.of_nat i) (seq 0 (Z.to_nat (rsize r))).

(** Two colons in a row occur in [s]. *)
Fixpoint has_double_colon (s : string) : bool :=
  match s with
  | EmptyString => false
  | String c rest =>
      (Ascii.eqb c ":"
       && match rest with
          | String c' _ => Ascii.eqb c' ":"
          | EmptyString => false
          end)
      || has_double_colon rest
  end.

(** The characters of a printed integer. *)
Definition digit_or_minus (c : ascii) : bool := is_digit c || Ascii.eqb c "-".

(** [b] starts after [a] ends, on the tuples. *)
Definition region_follows (a b : Region) : Prop :=
  r_end a < r_start b /\ r_start a <= r_start b.

(** An output field that prints without a tab. *)
Definition field_no_tab (f : Bed.field) : Prop :=
  match f with
  | Bed.FStr s => has_char TAB s = false
  | Bed.FInt _ => True
  end.

(** The integers that [str] converts: at most [int_max_str_digits] digits. *)
Definition prints (n : Z) : Prop := Z.abs n < 10 ^ 4300.

Definition field_prints (f : Bed.field) : Prop :=
  match f with
  | Bed.FStr _ => True
  | Bed.FInt n => prints n
  end.

(** A bound under which every integer of a record prints: coordinates of
    at most 4299 digits. *)
Definition coordinate_bound : Z := 10 ^ 4299.

(** * The nested constructor call *)

Lemma Bed_singleton (region : Region) :
  Bed.__init__ [region] "." false = Bed.single region.
Proof.
  unfold Bed.__init__, Bed.single, Bed.reverse_regions_if_minus_strand; simpl.
  destruct (String.eqb (r_strand region) "-"); reflexivity.
Qed.

(** ** The specification's example, evaluated *)

Example parse_example :
  parse_isoform_data "chr1|1,10,32|5,20,50|+"
  = Ok (mkIsoform "chr1" [1; 10; 32] [5; 20; 50] "+").
Proof. reflexivity. Qed.

Example bed_line_example :
  option_map bed_out
    (match main_isoform "chr1|1,10,32|5,20,50|+" with
     | Ok o => Some o | Raise _ => None end)
  = Some (String.concat (String (ascii_of_nat 9) EmptyString)
            ["chr1"; "0"; "50"; "chr1|1,10,32|5,20,50|+"; "."; "+";
             "0"; "50"; "0"; "3"; "5,11,19"; "0,9,31"]).
Proof. vm_compute. reflexivity. Qed.

(** The second line of the docstring has a start above its end, and stops
    at the second assertion of [output_isoform_as_bed]. *)
Example docstring_second_line :
  main_isoform "chr3|30,45|25,60|-" = Raise (AssertionError None).
Proof. reflexivity. Qed.

(** The raw path on a minus strand folds the last region first. *)
Example minus_strand_example :
  option_map (fun b => (Bed.start b, Bed.end_ b, Bed.block_sizes b,
                        Bed.block_starts b))
    (match Bed.__init__ [mkRegion "chr3" 30 50 "-"; mkRegion "chr3" 45 60 "-"]
                        "." false with
     | Ok b => Some b | Raise _ => None end)
  = Some (29, 60, [16; 21], [15; 0]).
Proof. reflexivity. Qed.

(** * Block folding in closed form *)

Section Extrema.

Lemma minimum_snoc x xs y : minimum x (xs ++ [y]) = Z.min (minimum x xs) y.
Proof. unfold minimum. now rewrite fold_left_app. Qed.

Lemma maximum_snoc x xs y : maximum x (xs ++ [y]) = Z.max (maximum x xs) y.
Proof. unfold maximum. now rewrite fold_left_app. Qed.

Lemma minimum_le_init xs : forall x, minimum x xs <= x.
Proof.
  induction xs as [|y ys IH]; intros x; simpl; [lia|].
  specialize (IH (Z.min x y)). unfold minimum in *. lia.
Qed.

Lemma minimum_lower xs : forall x, Forall (fun y => minimum x xs <= y) (x :: xs).
Proof.
  induction xs as [|y ys IH]; intros x.
  - constructor; [simpl; lia | constructor].
  - specialize (IH (Z.min x y)). inversion IH as [|? ? Hm Hys]; subst.
    change (minimum x (y :: ys)) with (minimum (Z.min x y) ys).
    constructor; [lia|]. constructor; [lia | exact Hys].
Qed.

Lemma minimum_In xs : forall x, In (minimum x xs) (x :: xs).
Proof.
  induction xs as [|y ys IH]; intros x; [now left|].
  change (minimum x (y :: ys)) with (minimum (Z.min x y) ys).
  destruct (IH (Z.min x y)) as [H|H].
  - rewrite <- H. destruct (Z.min_spec x y) as [[_ E]|[_ E]]; rewrite E.
    + now left.
    + right; now left.
  - right; now right.
Qed.

Lemma maximum_upper xs : forall x, Forall (fun y => y <= maximum x xs) (x :: xs).
Proof.
  induction xs as [|y ys IH]; intros x.
  - constructor; [simpl; lia | constructor].
  - specialize (IH (Z.max x y)). inversion IH as [|? ? Hm Hys]; subst.
    change (maximum x (y :: ys)) with (maximum (Z.max x y) ys).
    constructor; [lia|]. constructor; [lia | exact Hys].
Qed.

Lemma maximum_In xs : forall x, In (maximum x xs) (x :: xs).
Proof.
  induction xs as [|y ys IH]; intros x; [now left|].
  change (maximum x (y :: ys)) with (maximum (Z.max x y) ys).
  destruct (IH (Z.max x y)) as [H|H].
  - rewrite <- H. destruct (Z.max_spec x y) as [[_ E]|[_ E]]; rewrite E.
    + right; now left.
    + now left.
  - right; now right.
Qed.

End Extrema.

Lemma single_eq (region : Region) :
  Bed.single region = Ok (Bed._parse_region [region] "." false region).
Proof.
  unfold Bed.single, Bed.reverse_regions_if_minus_strand; simpl.
  destruct (String.eqb (r_strand region) "-"); reflexivity.
Qed.

Lemma add_block_folded sr nm un r0 done r :
  Bed._add_block (folded sr nm un r0 done) r
  = if same_strand r0 r then Ok (folded sr nm un r0 (done ++ [r]))
    else Raise (AssertionError None).
Proof.
  unfold Bed._add_block. rewrite single_eq. cbn [bind].
  unfold same_strand. cbn [Bed.strand folded Bed._parse_region].
  destruct (String.eqb (r_strand r0) (r_strand r)); cbn [assert bind]; [|reflexivity].
  f_equal. unfold folded.
  cbn [Bed.regions Bed.name Bed.union Bed.chrom Bed.start Bed.end_
       Bed.block_count Bed.block_sizes Bed.block_starts Bed._parse_region].
  fold (start0 r).
  rewrite (map_app start0 done [r]), (map_app r_end done [r]).
  cbn [map]. rewrite minimum_snoc, maximum_snoc.
  set (st := minimum (start0 r0) (map start0 done)).
  set (en := maximum (r_end r0) (map r_end done)).
  assert (Hst : (if start0 r <? st then start0 r else st) = Z.min st (start0 r))
    by (destruct (Z.ltb_spec (start0 r) st); lia).
  assert (Hen : (if r_end r >? en then r_end r else en) = Z.max en (r_end r))
    by (rewrite Z.gtb_ltb; destruct (Z.ltb_spec en (r_end r)); lia).
  rewrite Hst, Hen. f_equal.
  - cbn [List.length]. rewrite length_app. cbn [List.length]. lia.
  - rewrite map_app. reflexivity.
  - cbn [map app]. f_equal; [lia|].
    rewrite !map_app, !map_map. cbn [map]. f_equal.
    apply map_ext. intros a. lia.
Qed.

Lemma for_each_folded sr nm un r0 more :
  forall done,
    for_each Bed._add_block more (folded sr nm un r0 done)
    = if forallb (same_strand r0) more
      then Ok (folded sr nm un r0 (done ++ more))
      else Raise (AssertionError None).
Proof.
  induction more as [|r more IH]; intros done.
  - cbn. now rewrite app_nil_r.
  - cbn [for_each forallb]. rewrite add_block_folded.
    destruct (same_strand r0 r); cbn [bind andb]; [|reflexivity].
    rewrite IH, <- app_assoc. reflexivity.
Qed.

(** [_parse_regions] computes [folded], or stops at the first strand that
    differs from the first region's. *)
Lemma parse_regions_folded sr nm un r0 rest :
  Bed._parse_regions sr nm un (r0 :: rest)
  = if forallb (same_strand r0) rest
    then Ok (folded sr nm un r0 rest)
    else Raise (AssertionError None).
Proof.
  unfold Bed._parse_regions.
  replace (Bed._parse_region sr nm un r0) with (folded sr nm un r0 []).
  - apply for_each_folded.
  - unfold folded, Bed._parse_region, minimum. cbn. do 2 f_equal. lia.
Qed.

(** * The consistency assertions of [get_union_regions] *)

Lemma length_1_In {A : Type} (l : list A) (x y : A) :
  List.length l = 1%nat -> In x l -> In y l -> x = y.
Proof.
  destruct l as [|a [|b l]]; simpl; try discriminate.
  intros _ [Hx|[]] [Hy|[]]. congruence.
Qed.

Lemma len_set_is_1_cons (x : string) (xs : list string) :
  len_set_is_1 (x :: xs) = forallb (String.eqb x) xs.
Proof.
  unfold len_set_is_1.
  induction xs as [|y ys IH]; [reflexivity|].
  cbn [forallb]. destruct (String.eqb_spec x y) as [->|Hne].
  - cbn [andb]. rewrite <- IH. cbn [nodup].
    destruct (in_dec string_dec y (y :: ys)) as [_|Hn]; [reflexivity|].
    exfalso. apply Hn. now left.
  - cbn [andb]. apply Nat.eqb_neq. intros Hlen. apply Hne.
    apply (length_1_In _ x y Hlen); apply nodup_In.
    + now left.
    + right; now left.
Qed.

Lemma forallb_map {A B : Type} (f : A -> B) (p : B -> bool) (l : list A) :
  forallb p (map f l) = forallb (fun a => p (f a)) l.
Proof. induction l as [|a l IH]; simpl; [reflexivity | now rewrite IH]. Qed.

(** * Sorting by start *)

Lemma insert_by_start_perm r l : Permutation (r :: l) (Bed.insert_by_start r l).
Proof.
  induction l as [|a l IH]; simpl; [reflexivity|].
  destruct (Bed.start_ r <=? Bed.start_ a); [reflexivity|].
  rewrite perm_swap. now constructor.
Qed.

Lemma sorted_by_start_perm l : Permutation l (Bed.sorted_by_start l).
Proof.
  induction l as [|a l IH]; simpl; [constructor|].
  rewrite <- insert_by_start_perm. now constructor.
Qed.

Lemma insert_by_start_sorted r l :
  StronglySorted le_start l -> StronglySorted le_start (Bed.insert_by_start r l).
Proof.
  induction 1 as [|a l Hl IH Ha]; simpl.
  - repeat constructor.
  - destruct (Z.leb_spec (Bed.start_ r) (Bed.start_ a)) as [Hle|Hgt].
    + constructor; [now constructor|].
      constructor; [exact Hle|].
      eapply Forall_impl; [|exact Ha]. unfold le_start. intros; lia.
    + constructor; [exact IH|].
      eapply Permutation_Forall; [apply insert_by_start_perm|].
      constructor; [unfold le_start; lia | exact Ha].
Qed.

Lemma sorted_by_start_sorted l : StronglySorted le_start (Bed.sorted_by_start l).
Proof.
  induction l as [|a l IH]; simpl; [constructor|].
  now apply insert_by_start_sorted.
Qed.

(** * The sweep *)

Lemma sweep_acc rest :
  forall r1 acc, Bed.sweep r1 rest acc = acc ++ Bed.sweep r1 rest [].
Proof.
  induction rest as [|r2 rest IH]; intros r1 acc; simpl; [reflexivity|].
  destruct (Bed.end__ r1 <? Bed.start_ r2).
  - rewrite (IH r2 (acc ++ [r1])), (IH r2 [r1]), <- app_assoc. reflexivity.
  - destruct (Bed.end__ r1 <? Bed.end__ r2); apply IH.
Qed.

Lemma sweep_cons r1 r2 rest :
  Bed.sweep r1 (r2 :: rest) []
  = if Bed.end__ r1 <? Bed.start_ r2
    then r1 :: Bed.sweep r2 rest []
    else Bed.sweep (extend r1 r2) rest [].
Proof.
  simpl. destruct (Bed.end__ r1 <? Bed.start_ r2).
  - now rewrite sweep_acc.
  - unfold extend.
    destruct (Z.ltb_spec (Bed.end__ r1) (Bed.end__ r2)).
    + now rewrite Z.max_r by lia.
    + rewrite Z.max_l by lia. now destruct r1.
Qed.

Lemma get_union_regions_cons r0 rest :
  Bed.get_union_regions (r0 :: rest)
  = if negb (forallb (same_chr r0) rest)
    then Raise (AssertionError (Some chromosome_message))
    else if negb (forallb (same_strand r0) rest)
    then Raise (AssertionError (Some strand_message))
    else Ok (map (retag r0) (merged (r0 :: rest))).
Proof.
  unfold Bed.get_union_regions.
  cbn [map]. rewrite !len_set_is_1_cons, !forallb_map.
  fold (same_chr r0) (same_strand r0).
  destruct (forallb (same_chr r0) rest); cbn [assert bind negb]; [|reflexivity].
  destruct (forallb (same_strand r0) rest); cbn [assert bind negb]; [|reflexivity].
  unfold merged. cbn [map].
  pose proof (sorted_by_start_perm
    (Bed.mk_region (r_start r0) (r_end r0)
       :: map (fun r => Bed.mk_region (r_start r) (r_end r)) rest)) as Hp.
  destruct (Bed.sorted_by_start _) as [|r1 rs] eqn:E.
  - apply Permutation_sym, Permutation_nil in Hp. discriminate.
  - reflexivity.
Qed.

(** * What the sweep guarantees *)

Lemma cov_extend r1 r2 p :
  Bed.start_ r1 <= Bed.start_ r2 -> Bed.start_ r2 <= Bed.end__ r1 ->
  cov (extend r1 r2) p <-> cov r1 p \/ cov r2 p.
Proof. unfold cov, extend; cbn. lia. Qed.

Lemma sweep_spec rest :
  forall r1,
    Forall (le_start r1) rest -> StronglySorted le_start rest ->
    Forall (le_start r1) (Bed.sweep r1 rest [])
    /\ StronglySorted follows (Bed.sweep r1 rest [])
    /\ (forall p, Exists (fun r => cov r p) (Bed.sweep r1 rest [])
                  <-> Exists (fun r => cov r p) (r1 :: rest))
    /\ exists e tl, Bed.sweep r1 rest [] = Bed.mk_region (Bed.start_ r1) e :: tl.
Proof.
  induction rest as [|r2 rest IH]; intros r1 Hlow Hsorted.
  - cbn. split; [|split; [|split]].
    + constructor; [unfold le_start; lia | constructor].
    + repeat constructor.
    + reflexivity.
    + exists (Bed.end__ r1), []. now destruct r1.
  - inversion Hlow as [|? ? H12 Hlow']; subst.
    inversion Hsorted as [|? ? Hsorted' H2]; subst.
    rewrite sweep_cons.
    destruct (Z.ltb_spec (Bed.end__ r1) (Bed.start_ r2)) as [Hgap|Htouch].
    + destruct (IH r2 H2 Hsorted') as (Hlo & Hso & Hcov & _).
      split; [|split; [|split]].
      * constructor; [unfold le_start; lia|].
        eapply Forall_impl; [|exact Hlo]. unfold le_start in *. intros; lia.
      * constructor; [exact Hso|].
        eapply Forall_impl; [|exact Hlo]. unfold le_start, follows in *.
        intros; lia.
      * intros p. rewrite !Exists_cons, Hcov, Exists_cons. reflexivity.
      * exists (Bed.end__ r1), (Bed.sweep r2 rest []). now destruct r1.
    + assert (Hlow'' : Forall (le_start (extend r1 r2)) rest) by exact Hlow'.
      destruct (IH (extend r1 r2) Hlow'' Hsorted') as (Hlo & Hso & Hcov & Hhd).
      split; [|split; [|split]].
      * exact Hlo.
      * exact Hso.
      * intros p.
        rewrite Hcov, !Exists_cons, cov_extend by (unfold le_start in *; lia).
        tauto.
      * exact Hhd.
Qed.

Lemma sweep_length rest :
  forall r1, (1 <= List.length (Bed.sweep r1 rest [])
              <= S (List.length rest))%nat.
Proof.
  induction rest as [|r2 rest IH]; intros r1; [cbn; lia|].
  rewrite sweep_cons. destruct (Bed.end__ r1 <? Bed.start_ r2).
  - specialize (IH r2). cbn [List.length]. lia.
  - specialize (IH (extend r1 r2)). cbn [List.length]. lia.
Qed.

Lemma merged_spec (r0 : Region) (rest : list Region) :
  StronglySorted follows (merged (r0 :: rest))
  /\ (forall p, Exists (fun r => cov r p) (merged (r0 :: rest))
                <-> covered_by (r0 :: rest) p)
  /\ (1 <= List.length (merged (r0 :: rest)) <= List.length (r0 :: rest))%nat.
Proof.
  unfold merged. fold to_region.
  pose proof (sorted_by_start_perm (map to_region (r0 :: rest))) as Hp.
  pose proof (sorted_by_start_sorted (map to_region (r0 :: rest))) as Hs.
  destruct (Bed.sorted_by_start _) as [|r1 rs] eqn:E.
  - apply Permutation_sym, Permutation_nil in Hp. discriminate.
  - inversion Hs as [|? ? Hs' Hlow]; subst.
    destruct (sweep_spec rs r1 Hlow Hs') as (_ & Hso & Hcov & _).
    split; [exact Hso|]. split.
    + intros p. rewrite Hcov. unfold covered_by.
      change (fun r => covers r p) with (fun r => cov (to_region r) p).
      rewrite <- (Exists_map to_region (fun r => cov r p)).
      split; apply Permutation_Exists; [symmetry|]; exact Hp.
    + pose proof (sweep_length rs r1) as Hl.
      apply Permutation_length in Hp. rewrite length_map in Hp.
      cbn [List.length] in *. lia.
Qed.

Lemma same_chr_Forall r0 rest :
  forallb (same_chr r0) rest = true
  <-> Forall (fun r => r_chr r = r_chr r0) rest.
Proof.
  rewrite forallb_forall, Forall_forall. unfold same_chr.
  split; intros H r Hr; specialize (H r Hr).
  - symmetry. now apply String.eqb_eq.
  - apply String.eqb_eq. now symmetry.
Qed.

Lemma same_strand_Forall r0 rest :
  forallb (same_strand r0) rest = true
  <-> Forall (fun r => r_strand r = r_strand r0) rest.
Proof.
  rewrite forallb_forall, Forall_forall. unfold same_strand.
  split; intros H r Hr; specialize (H r Hr).
  - symmetry. now apply String.eqb_eq.
  - apply String.eqb_eq. now symmetry.
Qed.

Lemma StronglySorted_map {A B : Type} (f : A -> B) (R : B -> B -> Prop)
      (l : list A) :
  StronglySorted (fun a b => R (f a) (f b)) l -> StronglySorted R (map f l).
Proof.
  induction 1 as [|a l Hl IH Ha]; cbn; constructor; [exact IH|].
  now apply Forall_map.
Qed.

Lemma StronglySorted_impl {A : Type} (R R' : A -> A -> Prop) (l : list A) :
  (forall a b, R a b -> R' a b) -> StronglySorted R l -> StronglySorted R' l.
Proof.
  intros HR. induction 1 as [|a l Hl IH Ha]; constructor; [exact IH|].
  eapply Forall_impl; [|exact Ha]. auto.
Qed.

Lemma StronglySorted_pairs {A : Type} (R : A -> A -> Prop) (l : list A) :
  StronglySorted R l -> ForallOrdPairs R l.
Proof. induction 1; constructor; assumption. Qed.

(** * Theorems about [get_union_regions] *)

(** C3: on a non-empty region list, [get_union_regions] raises the
    chromosome assertion exactly when some region's chromosome differs from
    the first one's, raises the strand assertion exactly when the chromosomes
    agree and some strand differs, and returns a result exactly when all
    regions share one chromosome and one strand. *)
Theorem C3_union_consistency_checked (r0 : Region) (rest : list Region) :
  (Bed.get_union_regions (r0 :: rest)
     = Raise (AssertionError (Some "Not all regions in the same chromosome!"))
   <-> ~ Forall (fun r => r_chr r = r_chr r0) rest)
  /\ (Bed.get_union_regions (r0 :: rest)
        = Raise (AssertionError (Some "Not all regions at the same strand!"))
      <-> Forall (fun r => r_chr r = r_chr r0) rest
          /\ ~ Forall (fun r => r_strand r = r_strand r0) rest)
  /\ ((exists out, Bed.get_union_regions (r0 :: rest) = Ok out)
      <-> Forall (fun r => r_chr r = r_chr r0) rest
          /\ Forall (fun r => r_strand r = r_strand r0) rest).
Proof.
  rewrite get_union_regions_cons.
  rewrite <- same_chr_Forall, <- same_strand_Forall.
  unfold chromosome_message, strand_message.
  destruct (forallb (same_chr r0) rest), (forallb (same_strand r0) rest);
    cbn [negb];
    intuition (try discriminate; try congruence);
    try (eexists; reflexivity);
    match goal with
    | H : exists _, _ |- _ => destruct H as [out Hout]; discriminate Hout
    end.
Qed.

(** C4: for a non-empty list of regions on one chromosome and one strand,
    [get_union_regions] returns regions that are in ascending order of
    start, pairwise without a common position, covering exactly the
    positions that the inputs cover, each carrying the shared chromosome
    and strand. *)
Theorem C4_union_sorted_disjoint_covering (r0 : Region) (rest : list Region) :
  Forall (fun r => r_chr r = r_chr r0) rest ->
  Forall (fun r => r_strand r = r_strand r0) rest ->
  exists out,
    Bed.get_union_regions (r0 :: rest) = Ok out
    /\ StronglySorted (fun a b => r_start a <= r_start b) out
    /\ ForallOrdPairs (fun a b => ~ overlap a b) out
    /\ (forall p, covered_by out p <-> covered_by (r0 :: rest) p)
    /\ Forall (fun r => r_chr r = r_chr r0 /\ r_strand r = r_strand r0) out.
Proof.
  intros Hchr Hstrand.
  apply same_chr_Forall in Hchr. apply same_strand_Forall in Hstrand.
  rewrite get_union_regions_cons, Hchr, Hstrand. cbn [negb].
  destruct (merged_spec r0 rest) as (Hso & Hcov & _).
  eexists. split; [reflexivity|]. split; [|split; [|split]].
  - apply StronglySorted_map.
    eapply StronglySorted_impl; [|exact Hso].
    unfold follows. cbn. intros a b [_ H]. exact H.
  - apply StronglySorted_pairs, StronglySorted_map.
    eapply StronglySorted_impl; [|exact Hso].
    unfold follows, overlap, covers, start0. cbn.
    intros a b [H1 H2] (p & Ha & Hb). lia.
  - intros p. rewrite <- Hcov. unfold covered_by.
    rewrite Exists_map. reflexivity.
  - apply Forall_map, Forall_forall. intros r _. cbn. auto.
Qed.

Lemma C4_union_sorted_disjoint_covering_witness :
  exists out,
    Bed.get_union_regions
      [mkRegion "a" 11 15 "+"; mkRegion "a" 5 10 "+"; mkRegion "a" 8 12 "+"]
    = Ok out
    /\ StronglySorted (fun a b => r_start a <= r_start b) out
    /\ ForallOrdPairs (fun a b => ~ overlap a b) out
    /\ (forall p, covered_by out p
                  <-> covered_by [mkRegion "a" 11 15 "+"; mkRegion "a" 5 10 "+";
                                  mkRegion "a" 8 12 "+"] p)
    /\ Forall (fun r => r_chr r = "a" /\ r_strand r = "+") out.
Proof.
  apply (C4_union_sorted_disjoint_covering (mkRegion "a" 11 15 "+")
           [mkRegion "a" 5 10 "+"; mkRegion "a" 8 12 "+"]);
    repeat constructor.
Defined.

(** C5: the candidate and the next sorted interval stay apart exactly when
    the candidate ends strictly before the next one starts; otherwise the
    candidate's end becomes the larger of the two ends.  Intervals that
    touch, as 5..10 and 10..15, merge; 5..10 and 11..15 do not. *)
Theorem C5_merge_rule (chr strand : string) (s1 e1 s2 e2 : Z)
        (rest acc : list Bed._region) :
  s1 <= s2 ->
  Bed.sweep (Bed.mk_region s1 e1) (Bed.mk_region s2 e2 :: rest) acc
    = (if e1 <? s2
       then Bed.sweep (Bed.mk_region s2 e2) rest (acc ++ [Bed.mk_region s1 e1])
       else Bed.sweep (Bed.mk_region s1 (Z.max e1 e2)) rest acc)
  /\ Bed.get_union_regions
       [mkRegion chr s1 e1 strand; mkRegion chr s2 e2 strand]
     = Ok (if e1 <? s2
           then [mkRegion chr s1 e1 strand; mkRegion chr s2 e2 strand]
           else [mkRegion chr s1 (Z.max e1 e2) strand])
  /\ Bed.get_union_regions
       [mkRegion chr 5 10 strand; mkRegion chr 10 15 strand]
     = Ok [mkRegion chr 5 15 strand]
  /\ Bed.get_union_regions
       [mkRegion chr 5 10 strand; mkRegion chr 11 15 strand]
     = Ok [mkRegion chr 5 10 strand; mkRegion chr 11 15 strand].
Proof.
  intros Hle.
  assert (Hstep : forall a b l l',
             Bed.sweep a (b :: l) l'
             = if Bed.end__ a <? Bed.start_ b
               then Bed.sweep b l (l' ++ [a])
               else Bed.sweep (extend a b) l l').
  { intros a b l l'. rewrite sweep_acc, sweep_cons.
    destruct (Bed.end__ a <? Bed.start_ b).
    - rewrite (sweep_acc l b (l' ++ [a])), <- app_assoc. reflexivity.
    - now rewrite <- sweep_acc. }
  assert (Hpair : forall a1 b1 a2 b2, a1 <= a2 ->
             Bed.get_union_regions
               [mkRegion chr a1 b1 strand; mkRegion chr a2 b2 strand]
             = Ok (if b1 <? a2
                   then [mkRegion chr a1 b1 strand; mkRegion chr a2 b2 strand]
                   else [mkRegion chr a1 (Z.max b1 b2) strand])).
  { intros a1 b1 a2 b2 H12. rewrite get_union_regions_cons.
    unfold same_chr, same_strand, merged. cbn [forallb r_chr r_strand map].
    rewrite !String.eqb_refl. cbn [andb negb].
    cbn [Bed.sorted_by_start Bed.insert_by_start r_start r_end Bed.start_].
    destruct (Z.leb_spec a1 a2) as [_|Hgt]; [|lia].
    rewrite sweep_cons. cbn [Bed.end__ Bed.start_].
    destruct (b1 <? a2); reflexivity. }
  split; [apply (Hstep (Bed.mk_region s1 e1) (Bed.mk_region s2 e2))|].
  split; [apply Hpair; exact Hle|].
  split; [apply (Hpair 5 10 10 15); lia | apply (Hpair 5 10 11 15); lia].
Qed.

Lemma C5_merge_rule_witness :
  5 <= 10
  /\ Bed.sweep (Bed.mk_region 5 10) [Bed.mk_region 10 15; Bed.mk_region 20 30] []
     = Bed.sweep (Bed.mk_region 5 15) [Bed.mk_region 20 30] []
  /\ Bed.get_union_regions [mkRegion "a" 5 10 "+"; mkRegion "a" 10 15 "+"]
     = Ok [mkRegion "a" 5 15 "+"].
Proof.
  split; [lia|].
  pose proof (C5_merge_rule "a" "+" 5 10 10 15 [Bed.mk_region 20 30] []
                ltac:(lia)) as (H1 & H2 & _).
  split; [exact H1 | exact H2].
Defined.

(** * Theorems about the constructor *)

Lemma parse_regions_no_IndexError sr nm un (l : list Region) :
  l <> [] -> Bed._parse_regions sr nm un l <> Raise IndexError.
Proof.
  destruct l as [|r0 rest]; [congruence|]. intros _.
  rewrite parse_regions_folded.
  destruct (forallb (same_strand r0) rest); discriminate.
Qed.

(** C10: constructing a [Bed] from the empty list raises on both paths (the
    index error of [regions[0]] on the raw path, the chromosome assertion,
    which precedes the read of [regions[0]], on the union path), and from a
    non-empty list no path raises an index error. *)
Theorem C10_empty_region_list_rejected :
  (forall name, Bed.__init__ [] name false = Raise IndexError)
  /\ (forall name,
         Bed.__init__ [] name true
         = Raise (AssertionError
                    (Some "Not all regions in the same chromosome!")))
  /\ (forall r0 rest name union,
         Bed.__init__ (r0 :: rest) name union <> Raise IndexError).
Proof.
  split; [reflexivity|]. split; [reflexivity|].
  intros r0 rest name union. unfold Bed.__init__.
  destruct union; cbn [negb].
  - rewrite get_union_regions_cons.
    destruct (forallb (same_chr r0) rest); cbn [negb bind]; [|discriminate].
    destruct (forallb (same_strand r0) rest); cbn [negb bind]; [|discriminate].
    apply parse_regions_no_IndexError.
    destruct (merged_spec r0 rest) as (_ & _ & Hlen).
    destruct (merged (r0 :: rest)); cbn in *; [lia | discriminate].
  - cbn [Bed.reverse_regions_if_minus_strand].
    destruct (String.eqb (r_strand r0) "-"); cbn [bind];
      apply parse_regions_no_IndexError; [|discriminate].
    cbn [rev]. intros H. symmetry in H. now apply app_cons_not_nil in H.
Qed.

Lemma init_raw r0 rest name :
  Bed.__init__ (r0 :: rest) name false
  = let l := if String.eqb (r_strand r0) "-" then rev (r0 :: rest)
             else r0 :: rest in
    Bed._parse_regions l name false l.
Proof.
  unfold Bed.__init__. cbn [negb Bed.reverse_regions_if_minus_strand].
  destruct (String.eqb (r_strand r0) "-"); reflexivity.
Qed.

Lemma parse_regions_strand sr nm un (l : list Region) (b : Bed.t) :
  Bed._parse_regions sr nm un l = Ok b ->
  Forall (fun r => r_strand r = Bed.strand b) l.
Proof.
  destruct l as [|l0 lrest]; [discriminate|].
  rewrite parse_regions_folded.
  destruct (forallb (same_strand l0) lrest) eqn:E; [|discriminate].
  intros [= <-]. cbn [folded Bed.strand].
  constructor; [reflexivity|]. now apply same_strand_Forall.
Qed.

Lemma init_raw_total r0 rest name :
  forallb (same_strand r0) rest = true ->
  exists l0 lrest,
    Permutation (l0 :: lrest) (r0 :: rest)
    /\ Bed.__init__ (r0 :: rest) name false
       = Ok (folded (l0 :: lrest) name false l0 lrest).
Proof.
  intros Hstrand. apply same_strand_Forall in Hstrand.
  assert (Hall : Forall (fun r => r_strand r = r_strand r0) (r0 :: rest))
    by (constructor; [reflexivity | exact Hstrand]).
  rewrite init_raw. cbv zeta.
  assert (Hp : Permutation
                 (if String.eqb (r_strand r0) "-" then rev (r0 :: rest)
                  else r0 :: rest) (r0 :: rest)).
  { destruct (String.eqb (r_strand r0) "-");
      [symmetry; apply Permutation_rev | reflexivity]. }
  destruct (if String.eqb (r_strand r0) "-" then rev (r0 :: rest)
            else r0 :: rest) as [|l0 lrest].
  - apply Permutation_nil in Hp. discriminate.
  - exists l0, lrest. split; [exact Hp|].
    rewrite parse_regions_folded.
    eapply Permutation_Forall in Hall; [|symmetry; exact Hp].
    inversion Hall as [|? ? H0 Hrest]; subst.
    replace (forallb (same_strand l0) lrest) with true; [reflexivity|].
    symmetry. apply same_strand_Forall.
    eapply Forall_impl; [|exact Hrest]. cbn. congruence.
Qed.

(** C7: on the raw path a non-empty region list whose first strand is ["-"]
    is folded in reversed order, one whose first strand is ["+"] in the
    given order; a record results when all strands agree, and it carries
    the first region's strand. *)
Theorem C7_strand_driven_reversal (r0 : Region) (rest : list Region)
        (name : string) :
  (r_strand r0 = "-" ->
     Bed.__init__ (r0 :: rest) name false
     = Bed._parse_regions (rev (r0 :: rest)) name false (rev (r0 :: rest)))
  /\ (r_strand r0 = "+" ->
        Bed.__init__ (r0 :: rest) name false
        = Bed._parse_regions (r0 :: rest) name false (r0 :: rest))
  /\ (Forall (fun r => r_strand r = r_strand r0) rest ->
      exists b, Bed.__init__ (r0 :: rest) name false = Ok b)
  /\ (forall b, Bed.__init__ (r0 :: rest) name false = Ok b ->
                Bed.strand b = r_strand r0).
Proof.
  split; [|split; [|split]]; try rewrite init_raw.
  - intros ->. reflexivity.
  - intros ->. reflexivity.
  - intros H. apply same_strand_Forall in H.
    destruct (init_raw_total r0 rest name H) as (l0 & lrest & _ & E).
    rewrite <- init_raw. eexists. exact E.
  - intros b Hb. cbv zeta in Hb.
    apply parse_regions_strand in Hb. rewrite Forall_forall in Hb.
    symmetry. apply Hb.
    destruct (String.eqb (r_strand r0) "-").
    + apply -> in_rev. now left.
    + now left.
Qed.

(** * The envelope does not depend on the order of the regions *)

Lemma minimum_unique m x xs :
  In m (x :: xs) -> Forall (fun y => m <= y) (x :: xs) -> minimum x xs = m.
Proof.
  intros Hin Hlow.
  pose proof (minimum_In xs x) as Hin'.
  pose proof (minimum_lower xs x) as Hlow'.
  rewrite Forall_forall in Hlow, Hlow'.
  specialize (Hlow _ Hin'). specialize (Hlow' _ Hin). lia.
Qed.

Lemma maximum_unique m x xs :
  In m (x :: xs) -> Forall (fun y => y <= m) (x :: xs) -> maximum x xs = m.
Proof.
  intros Hin Hup.
  pose proof (maximum_In xs x) as Hin'.
  pose proof (maximum_upper xs x) as Hup'.
  rewrite Forall_forall in Hup, Hup'.
  specialize (Hup _ Hin'). specialize (Hup' _ Hin). lia.
Qed.

Lemma minimum_perm x xs y ys :
  Permutation (x :: xs) (y :: ys) -> minimum x xs = minimum y ys.
Proof.
  intros Hp. apply minimum_unique.
  - eapply Permutation_in; [symmetry; exact Hp | apply minimum_In].
  - eapply Permutation_Forall; [symmetry; exact Hp | apply minimum_lower].
Qed.

Lemma maximum_perm x xs y ys :
  Permutation (x :: xs) (y :: ys) -> maximum x xs = maximum y ys.
Proof.
  intros Hp. apply maximum_unique.
  - eapply Permutation_in; [symmetry; exact Hp | apply maximum_In].
  - eapply Permutation_Forall; [symmetry; exact Hp | apply maximum_upper].
Qed.

Lemma maximum_cons ys : forall x y, maximum x (y :: ys) = Z.max x (maximum y ys).
Proof.
  induction ys as [|z zs IH]; intros x y; [reflexivity|].
  change (maximum x (y :: z :: zs)) with (maximum (Z.max x y) (z :: zs)).
  rewrite (IH (Z.max x y) z), (IH y z). lia.
Qed.

Lemma sweep_max_end rest :
  forall r1, exists o os,
    Bed.sweep r1 rest [] = o :: os
    /\ maximum (Bed.end__ o) (map Bed.end__ os)
       = maximum (Bed.end__ r1) (map Bed.end__ rest).
Proof.
  induction rest as [|r2 rest IH]; intros r1.
  - exists r1, []. split; reflexivity.
  - rewrite sweep_cons. cbn [map].
    destruct (Z.ltb_spec (Bed.end__ r1) (Bed.start_ r2)).
    + destruct (IH r2) as (o & os & E & Hm).
      exists r1, (Bed.sweep r2 rest []). split; [reflexivity|].
      rewrite E. cbn [map]. rewrite !maximum_cons, Hm. reflexivity.
    + destruct (IH (extend r1 r2)) as (o & os & E & Hm).
      exists o, os. split; [exact E|]. rewrite Hm. reflexivity.
Qed.

Lemma sweep_min_start rest r1 :
  Forall (le_start r1) rest -> StronglySorted le_start rest ->
  exists o os,
    Bed.sweep r1 rest [] = o :: os
    /\ minimum (Bed.start_ o - 1) (map (fun r => Bed.start_ r - 1) os)
       = Bed.start_ r1 - 1.
Proof.
  intros Hlow Hsorted.
  destruct (sweep_spec rest r1 Hlow Hsorted) as (Hlo & _ & _ & e & tl & E).
  exists (Bed.mk_region (Bed.start_ r1) e), tl. split; [exact E|].
  apply minimum_unique; [now left|].
  rewrite E in Hlo.
  change (Bed.start_ (Bed.mk_region (Bed.start_ r1) e) - 1
            :: map (fun r => Bed.start_ r - 1) tl)
    with (map (fun r => Bed.start_ r - 1)
              (Bed.mk_region (Bed.start_ r1) e :: tl)).
  apply Forall_map. eapply Forall_impl; [|exact Hlo].
  unfold le_start. intros; lia.
Qed.

Lemma merged_envelope (r0 : Region) (rest : list Region) :
  exists o os,
    merged (r0 :: rest) = o :: os
    /\ minimum (Bed.start_ o - 1) (map (fun r => Bed.start_ r - 1) os)
       = minimum (start0 r0) (map start0 rest)
    /\ maximum (Bed.end__ o) (map Bed.end__ os)
       = maximum (r_end r0) (map r_end rest).
Proof.
  unfold merged. fold to_region.
  pose proof (sorted_by_start_perm (map to_region (r0 :: rest))) as Hp.
  pose proof (sorted_by_start_sorted (map to_region (r0 :: rest))) as Hs.
  destruct (Bed.sorted_by_start _) as [|r1 rs] eqn:E.
  - apply Permutation_sym, Permutation_nil in Hp. discriminate.
  - inversion Hs as [|? ? Hs' Hlow]; subst.
    destruct (sweep_min_start rs r1 Hlow Hs') as (o & os & Eo & Hmin).
    destruct (sweep_max_end rs r1) as (o' & os' & Eo' & Hmax).
    rewrite Eo in Eo'. injection Eo' as <- <-.
    exists o, os. split; [exact Eo|]. split.
    + rewrite Hmin. symmetry. apply minimum_unique.
      * apply (Permutation_in (l := map start0 (r0 :: rest))).
        -- reflexivity.
        -- apply (Permutation_map (fun r => Bed.start_ r - 1)) in Hp.
           rewrite map_map in Hp. symmetry in Hp.
           eapply Permutation_in; [exact Hp|]. now left.
      * change (start0 r0 :: map start0 rest) with (map start0 (r0 :: rest)).
        apply Forall_map.
        assert (Hall : Forall (le_start r1) (r1 :: rs))
          by (constructor; [unfold le_start; lia | exact Hlow]).
        eapply Permutation_Forall in Hall; [|symmetry; exact Hp].
        rewrite Forall_map in Hall.
        eapply Forall_impl; [|exact Hall].
        unfold le_start, start0. cbn. intros; lia.
    + rewrite Hmax.
      change (r_end r0 :: map r_end rest) with (map r_end (r0 :: rest)).
      apply (Permutation_map Bed.end__) in Hp. rewrite map_map in Hp.
      cbn [map] in Hp. symmetry in Hp.
      apply (maximum_perm _ _ _ _ Hp).
Qed.

(** * Invariants of the folded record *)

Lemma folded_invariants sr nm un (l0 : Region) (lrest : list Region) :
  let b := folded sr nm un l0 lrest in
  Bed.block_count b = Z.of_nat (List.length (Bed.block_sizes b))
  /\ List.length (Bed.block_sizes b) = List.length (Bed.block_starts b)
  /\ (forall i s z,
         nth_error (Bed.block_starts b) i = Some s ->
         nth_error (Bed.block_sizes b) i = Some z ->
         s + z <= Bed.end_ b - Bed.start b).
Proof.
  cbv zeta. unfold folded.
  cbn [Bed.block_count Bed.block_sizes Bed.block_starts Bed.start Bed.end_].
  split; [now rewrite length_map|]. split; [now rewrite !length_map|].
  intros i s z. rewrite !nth_error_map.
  destruct (nth_error (l0 :: lrest) i) as [r|] eqn:E; [|discriminate].
  cbn [option_map]. intros [= <-] [= <-].
  apply nth_error_In in E.
  pose proof (maximum_upper (map r_end lrest) (r_end l0)) as Hup.
  change (r_end l0 :: map r_end lrest) with (map r_end (l0 :: lrest)) in Hup.
  rewrite Forall_map, Forall_forall in Hup. specialize (Hup r E).
  unfold size. lia.
Qed.

Lemma retag_same_strand r0 o os :
  forallb (same_strand (retag r0 o)) (map (retag r0) os) = true.
Proof.
  rewrite forallb_map. apply forallb_forall. intros r _.
  unfold same_strand, retag. cbn. apply String.eqb_refl.
Qed.

Lemma init_union r0 rest name :
  Bed.__init__ (r0 :: rest) name true
  = if negb (forallb (same_chr r0) rest)
    then Raise (AssertionError (Some chromosome_message))
    else if negb (forallb (same_strand r0) rest)
    then Raise (AssertionError (Some strand_message))
    else match map (retag r0) (merged (r0 :: rest)) with
         | [] => Raise IndexError
         | u0 :: us => Ok (folded (u0 :: us) name true u0 us)
         end.
Proof.
  unfold Bed.__init__. cbn [negb]. rewrite get_union_regions_cons.
  destruct (forallb (same_chr r0) rest); cbn [negb bind]; [|reflexivity].
  destruct (forallb (same_strand r0) rest); cbn [negb bind]; [|reflexivity].
  destruct (merged (r0 :: rest)) as [|o os]; [reflexivity|].
  cbn [map]. rewrite parse_regions_folded, retag_same_strand. reflexivity.
Qed.

(** Where a record is built, its envelope is that of the input regions. *)
Lemma init_envelope r0 rest name union b :
  Bed.__init__ (r0 :: rest) name union = Ok b ->
  exists l0 lrest,
    b = folded (l0 :: lrest) name union l0 lrest
    /\ minimum (start0 l0) (map start0 lrest)
       = minimum (start0 r0) (map start0 rest)
    /\ maximum (r_end l0) (map r_end lrest)
       = maximum (r_end r0) (map r_end rest).
Proof.
  destruct union.
  - rewrite init_union.
    destruct (forallb (same_chr r0) rest); cbn [negb]; [|discriminate].
    destruct (forallb (same_strand r0) rest); cbn [negb]; [|discriminate].
    destruct (merged_envelope r0 rest) as (o & os & E & Hmin & Hmax).
    rewrite E. cbn [map]. intros [= <-].
    exists (retag r0 o), (map (retag r0) os). split; [reflexivity|].
    rewrite !map_map. cbn [retag r_end]. split.
    + rewrite <- Hmin. reflexivity.
    + rewrite <- Hmax. f_equal.
  - rewrite init_raw. cbv zeta.
    assert (Hp : Permutation
                   (if String.eqb (r_strand r0) "-" then rev (r0 :: rest)
                    else r0 :: rest) (r0 :: rest)).
    { destruct (String.eqb (r_strand r0) "-");
        [symmetry; apply Permutation_rev | reflexivity]. }
    destruct (if String.eqb (r_strand r0) "-" then rev (r0 :: rest)
              else r0 :: rest) as [|l0 lrest].
    + apply Permutation_nil in Hp. discriminate.
    + rewrite parse_regions_folded.
      destruct (forallb (same_strand l0) lrest); [|discriminate].
      intros [= <-]. exists l0, lrest. split; [reflexivity|]. split.
      * apply minimum_perm. apply (Permutation_map start0) in Hp. exact Hp.
      * apply maximum_perm. apply (Permutation_map r_end) in Hp. exact Hp.
Qed.

(** C6: a [Bed] built, on either path, from a non-empty list of regions
    with start <= end has as many block sizes and block starts as its block
    count, starts at the least 0-based region start, ends at the greatest
    region end, has start <= end, and every block ends within the
    envelope; the order of the regions plays no part. *)
Theorem C6_block_invariants (r0 : Region) (rest : list Region)
        (name : string) (union : bool) (b : Bed.t) :
  Forall (fun r => r_start r <= r_end r) (r0 :: rest) ->
  Bed.__init__ (r0 :: rest) name union = Ok b ->
  Bed.block_count b = Z.of_nat (List.length (Bed.block_sizes b))
  /\ List.length (Bed.block_sizes b) = List.length (Bed.block_starts b)
  /\ Bed.start b = minimum (start0 r0) (map start0 rest)
  /\ Bed.end_ b = maximum (r_end r0) (map r_end rest)
  /\ Bed.start b <= Bed.end_ b
  /\ (forall i s z,
         nth_error (Bed.block_starts b) i = Some s ->
         nth_error (Bed.block_sizes b) i = Some z ->
         s + z <= Bed.end_ b - Bed.start b).
Proof.
  intros Hvalid Hb.
  destruct (init_envelope _ _ _ _ _ Hb) as (l0 & lrest & -> & Hmin & Hmax).
  destruct (folded_invariants (l0 :: lrest) name union l0 lrest)
    as (Hcount & Hlen & Hidx).
  split; [exact Hcount|]. split; [exact Hlen|].
  assert (Hs : Bed.start (folded (l0 :: lrest) name union l0 lrest)
               = minimum (start0 r0) (map start0 rest)) by exact Hmin.
  assert (He : Bed.end_ (folded (l0 :: lrest) name union l0 lrest)
               = maximum (r_end r0) (map r_end rest)) by exact Hmax.
  split; [exact Hs|]. split; [exact He|]. split; [|exact Hidx].
  rewrite Hs, He.
  pose proof (minimum_le_init (map start0 rest) (start0 r0)).
  pose proof (maximum_upper (map r_end rest) (r_end r0)) as Hup.
  inversion Hup as [|? ? Hup0 _]; subst.
  inversion Hvalid as [|? ? Hv0 _]; subst.
  unfold start0 in *. lia.
Qed.

Lemma C6_block_invariants_witness :
  let b := folded [mkRegion "chr3" 45 60 "-"; mkRegion "chr3" 30 50 "-"]
                  "x" false
                  (mkRegion "chr3" 45 60 "-") [mkRegion "chr3" 30 50 "-"] in
  Bed.__init__ [mkRegion "chr3" 30 50 "-"; mkRegion "chr3" 45 60 "-"] "x" false
  = Ok b
  /\ Bed.block_count b = 2
  /\ Bed.start b = 29 /\ Bed.end_ b = 60
  /\ Bed.block_sizes b = [16; 21] /\ Bed.block_starts b = [15; 0]
  /\ (forall i s z,
         nth_error (Bed.block_starts b) i = Some s ->
         nth_error (Bed.block_sizes b) i = Some z ->
         s + z <= Bed.end_ b - Bed.start b).
Proof.
  cbv zeta.
  split; [reflexivity|]. split; [reflexivity|]. split; [reflexivity|].
  split; [reflexivity|]. split; [reflexivity|]. split; [reflexivity|].
  refine (proj2 (proj2 (proj2 (proj2 (proj2
    (C6_block_invariants
       (mkRegion "chr3" 30 50 "-") [mkRegion "chr3" 45 60 "-"] "x" false _
       _ eq_refl)))))).
  repeat constructor; cbn; lia.
Defined.

(** * The extended sequence *)

Lemma slice_to_min (s : string) :
  forall n, slice_to n s = slice_to (Nat.min n (String.length s)) s.
Proof.
  induction s as [|c s IH]; intros [|n]; cbn; try reflexivity.
  now rewrite <- IH.
Qed.

Lemma slice_to_length (s : string) :
  forall n, String.length (slice_to n s) = Nat.min n (String.length s).
Proof.
  induction s as [|c s IH]; intros [|n]; cbn; try reflexivity.
  now rewrite IH.
Qed.

Lemma slice_to_append (s t : string) :
  slice_to (String.length s) (String.append s t) = s.
Proof. induction s as [|c s IH]; cbn; [now destruct t | now rewrite IH]. Qed.

Lemma length_append (s t : string) :
  String.length (String.append s t) = (String.length s + String.length t)%nat.
Proof. induction s as [|c s IH]; cbn; [reflexivity | now rewrite IH]. Qed.

Lemma slice_to_all (s : string) :
  forall n, (String.length s <= n)%nat -> slice_to n s = s.
Proof.
  induction s as [|c s IH]; intros [|n] H; cbn in *; try reflexivity; try lia.
  rewrite IH by lia. reflexivity.
Qed.

(** C9: the extended output is the sequence followed by its first
    [min 30 (len S)] characters, which is the whole sequence when it is
    shorter than 30; cutting the extended output at [len S] gives the
    sequence back. *)
Theorem C9_extended_sequence (S : string) :
  seq_ext_out S
    = String.append S (slice_to (Nat.min 30 (String.length S)) S)
  /\ String.length (seq_ext_out S)
     = (String.length S + Nat.min 30 (String.length S))%nat
  /\ ((String.length S < 30)%nat -> seq_ext_out S = String.append S S)
  /\ slice_to (String.length S) (seq_ext_out S) = S.
Proof.
  unfold seq_ext_out. split; [|split; [|split]].
  - now rewrite <- slice_to_min.
  - now rewrite length_append, slice_to_length.
  - intros H. rewrite slice_to_all by lia. reflexivity.
  - apply slice_to_append.
Qed.

(** * Isoforms and the main loop *)

Lemma output_isoform_as_bed_valid isoform name :
  valid isoform ->
  output_isoform_as_bed isoform name
  = Bed.__init__ (exon_regions isoform) name true.
Proof.
  intros [Hlen Hle]. unfold output_isoform_as_bed.
  rewrite Hlen, Nat.eqb_refl. cbn [assert bind].
  replace (forallb _ _) with true; [reflexivity|].
  symmetry. apply forallb_forall. rewrite Forall_forall in Hle.
  intros [i j] Hin. specialize (Hle _ Hin). cbn in Hle. now apply Z.leb_le.
Qed.

Lemma split_nonempty sep s : split sep s <> [].
Proof.
  destruct s as [|c s]; cbn; [discriminate|].
  destruct (Ascii.eqb c sep); [discriminate|].
  destruct (split sep s); discriminate.
Qed.

Lemma map_result_length {A B : Type} (f : A -> result B) (xs : list A) :
  forall ys, map_result f xs = Ok ys -> List.length ys = List.length xs.
Proof.
  induction xs as [|x xs IH]; cbn; intros ys H.
  - now injection H as <-.
  - destruct (f x) as [y|]; cbn in H; [|discriminate].
    destruct (map_result f xs) as [ys'|]; cbn in H; [|discriminate].
    injection H as <-. cbn. now rewrite (IH ys' eq_refl).
Qed.

(** A parsed isoform has at least one start and one end. *)
Lemma parse_nonempty (isoform_string : string) (isoform : Isoform) :
  parse_isoform_data isoform_string = Ok isoform ->
  starts isoform <> [] /\ ends isoform <> [].
Proof.
  unfold parse_isoform_data.
  destruct (split "|" isoform_string) as [|f0 [|f1 [|f2 [|f3 [|? ?]]]]];
    try discriminate.
  destruct (map_result int (split "," f1)) as [ss|] eqn:Es; [|discriminate].
  destruct (map_result int (split "," f2)) as [es|] eqn:Ee; [|discriminate].
  cbn [bind]. intros [= <-]. cbn [starts ends].
  apply map_result_length in Es, Ee.
  pose proof (split_nonempty "," f1). pose proof (split_nonempty "," f2).
  split; intros ->; cbn in *.
  - destruct (split "," f1); [congruence | discriminate].
  - destruct (split "," f2); [congruence | discriminate].
Qed.

Lemma exon_regions_cons (isoform : Isoform) :
  starts isoform <> [] ->
  List.length (starts isoform) = List.length (ends isoform) ->
  exists r0 rest,
    exon_regions isoform = r0 :: rest
    /\ forallb (same_chr r0) rest = true
    /\ forallb (same_strand r0) rest = true.
Proof.
  unfold exon_regions.
  destruct (starts isoform) as [|s ss]; [congruence|].
  destruct (ends isoform) as [|e es]; [discriminate|]. intros _ _.
  cbn [combine map]. eexists _, _. split; [reflexivity|].
  rewrite !forallb_map.
  split; apply forallb_forall; intros [i j] _;
    unfold same_chr, same_strand; cbn; apply String.eqb_refl.
Qed.

Lemma exon_regions_length (isoform : Isoform) :
  List.length (starts isoform) = List.length (ends isoform) ->
  List.length (exon_regions isoform) = List.length (starts isoform).
Proof.
  intros H. unfold exon_regions. rewrite length_map, length_combine. lia.
Qed.

Lemma exon_regions_valid (isoform : Isoform) :
  valid isoform ->
  Forall (fun r => r_start r <= r_end r) (exon_regions isoform).
Proof.
  intros [_ H]. unfold exon_regions. apply Forall_map.
  eapply Forall_impl; [|exact H]. intros [i j]. cbn. auto.
Qed.

(** * Sums *)

Lemma fold_add_init (l : list Z) :
  forall a, fold_left Z.add l a = a + fold_left Z.add l 0.
Proof.
  induction l as [|x l IH]; intros a; cbn; [lia|].
  rewrite (IH (a + x)), (IH x). lia.
Qed.

Lemma sum_cons x l : sum (x :: l) = x + sum l.
Proof. unfold sum. cbn. apply fold_add_init. Qed.


(** * Covered length *)







Lemma size_retag r0 (l : list Bed._region) :
  map size (map (retag r0) l) = map rsize l.
Proof. rewrite map_map. apply map_ext. reflexivity. Qed.

Lemma output_valid_folded (line : string) (isoform : Isoform) :
  parse_isoform_data (rstrip_newline line) = Ok isoform ->
  valid isoform ->
  exists r0 rest u0 us,
    exon_regions isoform = r0 :: rest
    /\ map (retag r0) (merged (r0 :: rest)) = u0 :: us
    /\ forallb (same_chr r0) rest = true
    /\ forallb (same_strand r0) rest = true
    /\ output_isoform_as_bed isoform (rstrip_newline line)
       = Ok (folded (u0 :: us) (rstrip_newline line) true u0 us).
Proof.
  intros Hparse Hvalid.
  destruct (parse_nonempty _ _ Hparse) as [Hne _].
  destruct (exon_regions_cons isoform Hne (proj1 Hvalid))
    as (r0 & rest & E & Hchr & Hstrand).
  destruct (merged_spec r0 rest) as (_ & _ & Hlen).
  destruct (map (retag r0) (merged (r0 :: rest))) as [|u0 us] eqn:Eu.
  - apply (f_equal (@List.length _)) in Eu. rewrite length_map in Eu.
    cbn in Eu. lia.
  - exists r0, rest, u0, us. repeat (split; [assumption || reflexivity|]).
    rewrite (output_isoform_as_bed_valid _ _ Hvalid), E, init_union.
    rewrite Hchr, Hstrand, Eu. reflexivity.
Qed.

(** What a completed run of the loop body has done. *)
Lemma main_isoform_inv (line : string) (o : line_output) :
  main_isoform line = Ok o ->
  exists isoform,
    parse_isoform_data (rstrip_newline line) = Ok isoform
    /\ output_isoform_as_bed isoform (rstrip_newline line)
       = Ok (isoform_bed o)
    /\ Bed.to_string (isoform_bed o) true = Ok (bed_out o)
    /\ bed_len_out o
       = (rstrip_newline line, sum (Bed.block_sizes (isoform_bed o))).
Proof.
  unfold main_isoform.
  destruct (parse_isoform_data (rstrip_newline line)) as [isoform|] eqn:Ep;
    [|discriminate].
  cbn [bind].
  destruct (output_isoform_as_bed isoform (rstrip_newline line)) as [b|]
    eqn:Eb; [|discriminate].
  cbn [bind].
  destruct (Bed.to_string b true) as [txt|] eqn:Etxt; [|discriminate].
  cbn [bind].
  destruct (Bed._list_to_str _ _) as [row|]; [|discriminate].
  cbn [bind]. intros [= <-]. exists isoform.
  cbn [isoform_bed bed_out bed_len_out].
  split; [reflexivity|]. split; [exact Eb|].
  split; [exact Etxt | reflexivity].
Qed.

(** The record that a completed run wrote is the one that
    [output_isoform_as_bed] returned. *)
Lemma main_isoform_record (line : string) (isoform : Isoform) (b : Bed.t)
      (o : line_output) :
  parse_isoform_data (rstrip_newline line) = Ok isoform ->
  output_isoform_as_bed isoform (rstrip_newline line) = Ok b ->
  main_isoform line = Ok o ->
  isoform_bed o = b
  /\ Bed.to_string b true = Ok (bed_out o)
  /\ bed_len_out o = (rstrip_newline line, sum (Bed.block_sizes b)).
Proof.
  intros Hparse Hb Ho.
  destruct (main_isoform_inv line o Ho) as (iso' & Hp' & Hb' & Htxt & Hrow).
  rewrite Hparse in Hp'. injection Hp' as <-.
  rewrite Hb in Hb'. injection Hb' as ->.
  repeat split; assumption.
Qed.


(** * Theorems about the main loop *)

(** C1, as the code has it: for a parsed line whose isoform is valid,
    [output_isoform_as_bed] returns the record built on the union path, from
    the result of [get_union_regions] on the exon tuples; its block count
    is the number of merged intervals, which is at most the number of
    exons; and whenever the loop body writes the line to [isoforms.bed], it
    is this record that it prints. *)
Theorem C1_bed_record_is_union_built (line : string) (isoform : Isoform) :
  parse_isoform_data (rstrip_newline line) = Ok isoform ->
  valid isoform ->
  exists u b,
    Bed.get_union_regions (exon_regions isoform) = Ok u
    /\ output_isoform_as_bed isoform (rstrip_newline line) = Ok b
    /\ Bed._parse_regions u (rstrip_newline line) true u = Ok b
    /\ Bed.union b = true
    /\ Bed.block_count b = Z.of_nat (List.length u)
    /\ (List.length u <= List.length (starts isoform))%nat
    /\ (forall o, main_isoform line = Ok o ->
                  isoform_bed o = b
                  /\ Bed.to_string b true = Ok (bed_out o)).
Proof.
  intros Hparse Hvalid.
  destruct (output_valid_folded line isoform Hparse Hvalid)
    as (r0 & rest & u0 & us & E & Eu & Hchr & Hstrand & Hout).
  exists (u0 :: us), (folded (u0 :: us) (rstrip_newline line) true u0 us).
  split; [|split; [exact Hout|split; [|split; [reflexivity|split;
    [reflexivity|split]]]]].
  - rewrite E, get_union_regions_cons, Hchr, Hstrand, Eu. reflexivity.
  - rewrite parse_regions_folded.
    replace (forallb (same_strand u0) us) with true; [reflexivity|].
    destruct (merged (r0 :: rest)) as [|o os]; [discriminate|].
    cbn [map] in Eu. injection Eu as <- <-. symmetry. apply retag_same_strand.
  - rewrite <- Eu, length_map.
    destruct (merged_spec r0 rest) as (_ & _ & Hlen).
    rewrite <- (exon_regions_length isoform (proj1 Hvalid)), E. lia.
  - intros o Ho.
    destruct (main_isoform_record line isoform _ o Hparse Hout Ho)
      as (Hb & Htxt & _).
    split; assumption.
Qed.

Lemma C1_bed_record_is_union_built_witness :
  (exists o, main_isoform "chr1|1,3|5,8|+" = Ok o)
  /\ exists u b,
      Bed.get_union_regions
        (exon_regions (mkIsoform "chr1" [1; 3] [5; 8] "+")) = Ok u
      /\ output_isoform_as_bed (mkIsoform "chr1" [1; 3] [5; 8] "+")
                               (rstrip_newline "chr1|1,3|5,8|+") = Ok b
      /\ Bed._parse_regions u (rstrip_newline "chr1|1,3|5,8|+") true u = Ok b
      /\ Bed.union b = true
      /\ Bed.block_count b = Z.of_nat (List.length u)
      /\ Nat.le (List.length u)
                (List.length (starts (mkIsoform "chr1" [1; 3] [5; 8] "+")))
      /\ (forall o, main_isoform "chr1|1,3|5,8|+" = Ok o ->
                    isoform_bed o = b
                    /\ Bed.to_string b true = Ok (bed_out o)).
Proof.
  split; [eexists; vm_compute; reflexivity|].
  apply (C1_bed_record_is_union_built
           "chr1|1,3|5,8|+" (mkIsoform "chr1" [1; 3] [5; 8] "+")).
  - reflexivity.
  - split; [reflexivity|]. repeat constructor; cbn; lia.
Defined.

(** C1 as stated fails: for the valid isoform [chr1|1,3|5,8|+] the record
    written to [isoforms.bed] has one block, not one per exon, and its line
    differs from that of the record built on the raw path. *)
Lemma C1_counterexample :
  exists o braw,
    main_isoform "chr1|1,3|5,8|+" = Ok o
    /\ Bed.__init__ (exon_regions (mkIsoform "chr1" [1; 3] [5; 8] "+"))
                    "chr1|1,3|5,8|+" false = Ok braw
    /\ Bed.block_count braw = 2
    /\ Bed.block_count (isoform_bed o) = 1
    /\ Bed.block_count (isoform_bed o)
       <> Z.of_nat (List.length (starts (mkIsoform "chr1" [1; 3] [5; 8] "+")))
    /\ Bed.to_string braw true <> Ok (bed_out o).
Proof.
  eexists. eexists.
  split; [vm_compute; reflexivity|]. split; [vm_compute; reflexivity|].
  split; [reflexivity|]. split; [reflexivity|].
  split; [discriminate|].
  vm_compute. intros H. discriminate H.
Qed.

(** C2, as the code has it: the line [chr1|1,10,32|5,20,50|+] parses to
    starts 1, 10, 32 and ends 5, 20, 50; the record built for it, on either
    path, has three blocks, start 0, end 50, block starts 0, 9, 31 and block
    sizes 5, 11, 19 (each [end - (start - 1)]). *)
Theorem C2_example_line :
  parse_isoform_data "chr1|1,10,32|5,20,50|+"
  = Ok (mkIsoform "chr1" [1; 10; 32] [5; 20; 50] "+")
  /\ (forall union,
         exists b,
           Bed.__init__
             (exon_regions (mkIsoform "chr1" [1; 10; 32] [5; 20; 50] "+"))
             "chr1|1,10,32|5,20,50|+" union = Ok b
           /\ Bed.block_count b = 3
           /\ Bed.start b = 0
           /\ Bed.end_ b = 50
           /\ Bed.block_sizes b = [5; 11; 19]
           /\ Bed.block_starts b = [0; 9; 31])
  /\ (exists o,
         main_isoform "chr1|1,10,32|5,20,50|+" = Ok o
         /\ Bed.block_sizes (isoform_bed o) = [5; 11; 19]
         /\ bed_len_out o = ("chr1|1,10,32|5,20,50|+", 35)).
Proof.
  split; [reflexivity|]. split.
  - intros [|]; eexists; (split; [vm_compute; reflexivity|]);
      repeat split; reflexivity.
  - eexists. split; [vm_compute; reflexivity|]. split; reflexivity.
Qed.

(** C2 as stated fails: on neither path does the record built for
    [chr1|1,10,32|5,20,50|+] have block sizes 4, 10, 18. *)
Lemma C2_counterexample :
  ~ (exists union b,
        Bed.__init__
          (exon_regions (mkIsoform "chr1" [1; 10; 32] [5; 20; 50] "+"))
          "chr1|1,10,32|5,20,50|+" union = Ok b
        /\ Bed.block_sizes b = [4; 10; 18]).
Proof.
  intros (union & b & Hb & Hsizes).
  destruct union; vm_compute in Hb; injection Hb as <-;
    cbn in Hsizes; discriminate Hsizes.
Qed.



(** * Further properties: splitting and joining *)

Lemma split_length sep s :
  List.length (split sep s) = S (count_char sep s).
Proof.
  induction s as [|c s IH]; [reflexivity|]. cbn [split count_char].
  destruct (Ascii.eqb c sep).
  - cbn [List.length]. rewrite IH. reflexivity.
  - destruct (split sep s) as [|w ws]; cbn [List.length] in *; lia.
Qed.

Lemma split_no_sep sep s : has_char sep s = false -> split sep s = [s].
Proof.
  induction s as [|c s IH]; [reflexivity|]. cbn [has_char split].
  destruct (Ascii.eqb c sep); [discriminate|]. cbn [orb]. intros H.
  now rewrite (IH H).
Qed.

Lemma split_app_sep sep a b :
  has_char sep a = false ->
  split sep (String.append a (String sep b)) = a :: split sep b.
Proof.
  induction a as [|c a IH]; cbn [has_char String.append split].
  - intros _. now rewrite Ascii.eqb_refl.
  - destruct (Ascii.eqb c sep); [discriminate|]. cbn [orb]. intros H.
    now rewrite (IH H).
Qed.

Lemma split_concat sep (l : list string) :
  l <> [] ->
  Forall (fun x => has_char sep x = false) l ->
  split sep (String.concat (String sep EmptyString) l) = l.
Proof.
  induction l as [|x l IH]; [congruence|]. intros _ Hall.
  inversion Hall as [|? ? Hx Hl]; subst.
  destruct l as [|y l].
  - cbn. now apply split_no_sep.
  - cbn [String.concat]. cbn [String.append].
    rewrite (split_app_sep sep x _ Hx). f_equal.
    apply IH; [discriminate | exact Hl].
Qed.

(** X1: a line parses only if it has exactly three [|]; with any other
    number [parse_isoform_data] raises [ValueError]. *)
Theorem X1_parse_field_count (isoform_string : string) :
  count_char "|" isoform_string <> 3%nat ->
  parse_isoform_data isoform_string = Raise ValueError.
Proof.
  intros H. unfold parse_isoform_data.
  pose proof (split_length "|" isoform_string) as Hlen.
  destruct (split "|" isoform_string) as [|f0 [|f1 [|f2 [|f3 [|f4 fs]]]]];
    try reflexivity.
  cbn in Hlen. exfalso. apply H. lia.
Qed.

Lemma X1_parse_field_count_witness :
  parse_isoform_data "chr1|1,10|5,20" = Raise ValueError.
Proof.
  apply (X1_parse_field_count "chr1|1,10|5,20"). cbn. discriminate.
Defined.

(** * Further properties: printing and reading integers *)

Lemma string_forall_impl (p q : ascii -> bool) s :
  (forall c, p c = true -> q c = true) ->
  string_forall p s = true -> string_forall q s = true.
Proof.
  intros Hpq. induction s as [|c s IH]; cbn; [reflexivity|].
  intros H. apply andb_true_iff in H as [Hc Hs].
  now rewrite (Hpq c Hc), (IH Hs).
Qed.

Lemma is_digit_cases c :
  is_digit c = true ->
  In c ["0"; "1"; "2"; "3"; "4"; "5"; "6"; "7"; "8"; "9"]%char.
Proof.
  destruct c as [[] [] [] [] [] [] [] []]; intros H;
    try discriminate H; cbn; tauto.
Qed.

Lemma digit_not_space c : is_digit c = true -> is_space c = false.
Proof.
  intros H. apply is_digit_cases in H. cbn in H.
  repeat (destruct H as [<-|H]; [reflexivity|]). destruct H.
Qed.

Lemma rstrip_no_space s :
  string_forall (fun c => negb (is_space c)) s = true -> rstrip s = s.
Proof.
  induction s as [|c s IH]; [reflexivity|]. cbn [string_forall rstrip].
  intros H. apply andb_true_iff in H as [Hc Hs]. rewrite (IH Hs).
  destruct s; [|reflexivity].
  apply negb_true_iff in Hc. now rewrite Hc.
Qed.

Lemma lstrip_no_space s :
  string_forall (fun c => negb (is_space c)) s = true -> lstrip s = s.
Proof.
  destruct s as [|c s]; [reflexivity|]. cbn [string_forall lstrip].
  intros H. apply andb_true_iff in H as [Hc _].
  apply negb_true_iff in Hc. now rewrite Hc.
Qed.

Lemma string_of_uint_digits (d : Decimal.uint) :
  string_forall is_digit (NilEmpty.string_of_uint d) = true.
Proof. induction d; cbn; auto. Qed.

Lemma digits_string_of_uint (d : Decimal.uint) :
  forall a : Decimal.uint,
    digits (NilEmpty.string_of_uint d) (Z.of_N (Unsigned.of_lu a)) true
    = Some (Z.of_N (Unsigned.of_lu (Decimal.revapp d a))).
Proof.
  induction d; intros a; [reflexivity|..];
    cbn [NilEmpty.string_of_uint Decimal.revapp]; rewrite <- IHd;
    cbn [digits];
    match goal with
    | |- context [digit_of ?c] =>
        let v := eval vm_compute in (digit_of c) in
        change (digit_of c) with v
    end;
    cbn [Unsigned.of_lu];
    match goal with
    | |- digits _ ?x _ = digits _ ?y _ => replace x with y by lia
    end; reflexivity.
Qed.

Lemma digits_first_digit (d : Decimal.uint) acc :
  d <> Decimal.Nil ->
  digits (NilEmpty.string_of_uint d) acc false
  = digits (NilEmpty.string_of_uint d) acc true.
Proof. destruct d; [congruence|..]; reflexivity. Qed.

Lemma digits_uint (d : Decimal.uint) :
  d <> Decimal.Nil ->
  digits (NilEmpty.string_of_uint d) 0 false = Some (Z.of_uint d).
Proof.
  intros Hd. rewrite (digits_first_digit d 0 Hd).
  change 0 with (Z.of_N (Unsigned.of_lu Decimal.Nil)).
  rewrite digits_string_of_uint. unfold Z.of_uint.
  now rewrite Unsigned.of_uint_alt.
Qed.

Lemma digits_no_space s :
  string_forall is_digit s = true ->
  string_forall (fun c => negb (is_space c)) s = true.
Proof.
  apply string_forall_impl. intros c H.
  now rewrite (digit_not_space c H).
Qed.

Lemma count_digits_minus (s : string) :
  count_digits (String "-" s) = count_digits s.
Proof. reflexivity. Qed.

Lemma int_string_of_uint (d : Decimal.uint) :
  d <> Decimal.Nil ->
  Nat.leb (count_digits (NilEmpty.string_of_uint d)) int_max_str_digits
  = true ->
  int (NilEmpty.string_of_uint d) = Ok (Z.of_uint d)
  /\ int (String "-" (NilEmpty.string_of_uint d)) = Ok (- Z.of_uint d).
Proof.
  intros Hd Hcount. pose proof (digits_uint d Hd) as Hdig.
  pose proof (digits_no_space _ (string_of_uint_digits d)) as Hns.
  unfold int. cbv zeta. split.
  - rewrite (rstrip_no_space _ Hns), (lstrip_no_space _ Hns), Hcount.
    destruct d; [congruence|..];
      cbn [NilEmpty.string_of_uint] in *; cbv iota beta;
      rewrite Hdig; reflexivity.
  - assert (Hns' : string_forall (fun c => negb (is_space c))
                     (String "-" (NilEmpty.string_of_uint d)) = true)
      by (cbn [string_forall]; rewrite Hns; reflexivity).
    rewrite (rstrip_no_space _ Hns'), (lstrip_no_space _ Hns').
    rewrite count_digits_minus, Hcount.
    cbv iota beta. rewrite Hdig. reflexivity.
Qed.

Lemma string_of_int_sign (p : positive) :
  NilZero.string_of_int (Z.to_int (Z.pos p))
  = NilEmpty.string_of_uint (Pos.to_uint p)
  /\ NilZero.string_of_int (Z.to_int (Z.neg p))
     = String "-" (NilEmpty.string_of_uint (Pos.to_uint p)).
Proof.
  pose proof (Unsigned.to_uint_nonnil p) as Hnn.
  unfold Z.to_int, NilZero.string_of_int, NilZero.string_of_uint.
  destruct (Pos.to_uint p); [congruence|..]; split; reflexivity.
Qed.

(** What [str] prints for an integer, [int] reads back as that integer. *)
Lemma int_of_str (n : Z) (s : string) :
  Bed.str (Bed.FInt n) = Ok s -> int s = Ok n.
Proof.
  unfold Bed.str. cbv zeta.
  destruct (Nat.leb (count_digits (NilZero.string_of_int (Z.to_int n)))
                    int_max_str_digits) eqn:Hc; [|discriminate].
  intros [= <-]. destruct n as [|p|p].
  - reflexivity.
  - rewrite (proj1 (string_of_int_sign p)) in *.
    rewrite (proj1 (int_string_of_uint _ (Unsigned.to_uint_nonnil p) Hc)).
    unfold Z.of_uint. now rewrite Unsigned.of_to.
  - rewrite (proj2 (string_of_int_sign p)) in *.
    rewrite count_digits_minus in Hc.
    rewrite (proj2 (int_string_of_uint _ (Unsigned.to_uint_nonnil p) Hc)).
    unfold Z.of_uint. now rewrite Unsigned.of_to.
Qed.

Lemma str_int_chars (n : Z) (s : string) :
  Bed.str (Bed.FInt n) = Ok s -> string_forall digit_or_minus s = true.
Proof.
  assert (Hd : forall d, string_forall digit_or_minus
                           (NilEmpty.string_of_uint d) = true).
  { intros d. eapply string_forall_impl; [|apply string_of_uint_digits].
    intros c H. unfold digit_or_minus. now rewrite H. }
  unfold Bed.str. cbv zeta.
  destruct (Nat.leb _ int_max_str_digits); [|discriminate].
  intros [= <-]. destruct n as [|p|p].
  - reflexivity.
  - rewrite (proj1 (string_of_int_sign p)). apply Hd.
  - rewrite (proj2 (string_of_int_sign p)). cbn [string_forall].
    now rewrite Hd.
Qed.

Lemma has_char_forall (c : ascii) (p : ascii -> bool) s :
  p c = false -> string_forall p s = true -> has_char c s = false.
Proof.
  intros Hc. induction s as [|c' s IH]; cbn; [reflexivity|].
  intros H. apply andb_true_iff in H as [Hc' Hs]. rewrite (IH Hs).
  destruct (Ascii.eqb_spec c' c) as [->|_]; [congruence | reflexivity].
Qed.

Lemma has_char_append c a b :
  has_char c (String.append a b) = has_char c a || has_char c b.
Proof.
  induction a as [|c' a IH]; cbn; [reflexivity|].
  now rewrite IH, orb_assoc.
Qed.

Lemma has_char_concat c sep (l : list string) :
  has_char c sep = false ->
  Forall (fun x => has_char c x = false) l ->
  has_char c (String.concat sep l) = false.
Proof.
  intros Hsep. induction 1 as [|x l Hx Hl IH]; [reflexivity|].
  destruct l as [|y l]; [exact Hx|].
  cbn [String.concat]. rewrite !has_char_append, Hx, Hsep. exact IH.
Qed.

Lemma map_result_cons_inv {A B : Type} (f : A -> result B) x xs ys :
  map_result f (x :: xs) = Ok ys ->
  exists y ys', ys = y :: ys' /\ f x = Ok y /\ map_result f xs = Ok ys'.
Proof.
  cbn [map_result]. destruct (f x) as [y|]; [|discriminate]. cbn [bind].
  destruct (map_result f xs) as [ys'|]; [|discriminate]. cbn [bind].
  intros [= <-]. now exists y, ys'.
Qed.

Lemma str_ints_no_char c (l : list Z) :
  digit_or_minus c = false ->
  forall strs,
    map_result Bed.str (map Bed.FInt l) = Ok strs ->
    Forall (fun x => has_char c x = false) strs.
Proof.
  intros Hc. induction l as [|n l IH]; intros strs H.
  - injection H as <-. constructor.
  - cbn [map] in H.
    apply map_result_cons_inv in H as (y & ys & -> & Hy & Hys).
    constructor; [|now apply IH].
    apply (has_char_forall c digit_or_minus); [exact Hc|].
    exact (str_int_chars n y Hy).
Qed.

Lemma map_result_int_str (l : list Z) :
  forall strs,
    map_result Bed.str (map Bed.FInt l) = Ok strs ->
    map_result int strs = Ok l.
Proof.
  induction l as [|n l IH]; intros strs H.
  - injection H as <-. reflexivity.
  - cbn [map] in H.
    apply map_result_cons_inv in H as (y & ys & -> & Hy & Hys).
    cbn [map_result]. rewrite (int_of_str n y Hy), (IH ys Hys). reflexivity.
Qed.

Lemma list_to_str_inv (list_ : list Bed.field) (sep txt : string) :
  Bed._list_to_str list_ sep = Ok txt ->
  exists strs,
    map_result Bed.str list_ = Ok strs /\ txt = String.concat sep strs.
Proof.
  unfold Bed._list_to_str.
  destruct (map_result Bed.str list_) as [strs|]; [|discriminate].
  cbn [bind]. intros [= <-]. now exists strs.
Qed.

Lemma read_printed_ints (l : list Z) (txt : string) :
  l <> [] ->
  Bed._list_to_str (map Bed.FInt l) "," = Ok txt ->
  map_result int (split "," txt) = Ok l.
Proof.
  intros Hl Htxt.
  apply list_to_str_inv in Htxt as (strs & Hstrs & ->).
  rewrite (split_concat "," strs).
  - now apply (map_result_int_str l).
  - apply map_result_length in Hstrs. rewrite length_map in Hstrs.
    destruct l; [congruence|]. destruct strs; discriminate.
  - now apply (str_ints_no_char "," l).
Qed.

Lemma printed_ints_no_char c (l : list Z) (txt : string) :
  digit_or_minus c = false -> Ascii.eqb "," c = false ->
  Bed._list_to_str (map Bed.FInt l) "," = Ok txt ->
  has_char c txt = false.
Proof.
  intros Hc Hcomma Htxt.
  apply list_to_str_inv in Htxt as (strs & Hstrs & ->).
  apply has_char_concat.
  - cbn [has_char]. now rewrite Hcomma.
  - now apply (str_ints_no_char c l).
Qed.

(** X3: where [_list_to_str] has printed the starts and the ends with
    commas, the line made of a chromosome, these two texts and a strand,
    joined by [|], parses back to the four, as long as the chromosome and
    the strand hold no [|] and there is at least one start and one end. *)
Theorem X3_parse_printed_line (chr strand : string) (ss es : list Z)
        (starts_txt ends_txt : string) :
  has_char "|" chr = false ->
  has_char "|" strand = false ->
  ss <> [] -> es <> [] ->
  Bed._list_to_str (map Bed.FInt ss) "," = Ok starts_txt ->
  Bed._list_to_str (map Bed.FInt es) "," = Ok ends_txt ->
  parse_isoform_data
    (String.append chr
       (String "|" (String.append starts_txt
          (String "|" (String.append ends_txt (String "|" strand))))))
  = Ok (mkIsoform chr ss es strand).
Proof.
  intros Hchr Hstrand Hss Hes Hst Het. unfold parse_isoform_data.
  rewrite (split_app_sep "|" chr _ Hchr).
  rewrite (split_app_sep "|" starts_txt _
             (printed_ints_no_char "|" ss _ eq_refl eq_refl Hst)).
  rewrite (split_app_sep "|" ends_txt _
             (printed_ints_no_char "|" es _ eq_refl eq_refl Het)).
  rewrite (split_no_sep "|" strand Hstrand).
  rewrite (read_printed_ints ss _ Hss Hst), (read_printed_ints es _ Hes Het).
  reflexivity.
Qed.

Lemma X3_parse_printed_line_witness :
  parse_isoform_data "chr7|12,-3,400|15,0,512|-"
  = Ok (mkIsoform "chr7" [12; -3; 400] [15; 0; 512] "-").
Proof.
  apply (X3_parse_printed_line "chr7" "-" [12; -3; 400] [15; 0; 512]
           "12,-3,400" "15,0,512");
    (reflexivity || discriminate).
Defined.

(** * Further properties: building the record *)

(** X4: [output_isoform_as_bed] returns a record exactly when the isoform
    passes both assertions and has at least one exon; it raises the plain
    assertion error when the lengths differ or some start exceeds its end,
    and the chromosome assertion of the union when there is no exon. *)
Theorem X4_output_isoform_as_bed_domain (isoform : Isoform) (name : string) :
  ((exists b, output_isoform_as_bed isoform name = Ok b)
   <-> valid isoform /\ starts isoform <> [])
  /\ (~ valid isoform ->
      output_isoform_as_bed isoform name = Raise (AssertionError None))
  /\ (starts isoform = [] -> ends isoform = [] ->
      output_isoform_as_bed isoform name
      = Raise (AssertionError
                 (Some "Not all regions in the same chromosome!"))).
Proof.
  assert (Hinvalid : ~ valid isoform ->
            output_isoform_as_bed isoform name = Raise (AssertionError None)).
  { intros Hnv. unfold output_isoform_as_bed.
    destruct (Nat.eqb_spec (List.length (starts isoform))
                           (List.length (ends isoform))) as [Hlen|Hlen];
      [|reflexivity].
    cbn [assert bind].
    destruct (forallb _ (combine (starts isoform) (ends isoform))) eqn:Hall;
      [|reflexivity].
    exfalso. apply Hnv. split; [exact Hlen|].
    rewrite forallb_forall in Hall. apply Forall_forall.
    intros [i j] Hin. specialize (Hall _ Hin). cbn in Hall.
    now apply Z.leb_le. }
  assert (Hempty : starts isoform = [] ->
            Bed.__init__ (exon_regions isoform) name true
            = Raise (AssertionError (Some chromosome_message))).
  { intros E. unfold exon_regions. rewrite E. reflexivity. }
  split; [split|split].
  - intros [b Hb].
    assert (Hv : valid isoform).
    { destruct isoform as [c ss es st]. unfold valid. cbn [starts ends].
      unfold output_isoform_as_bed in Hb. cbn [starts ends] in Hb.
      destruct (Nat.eqb_spec (List.length ss) (List.length es)) as [Hlen|];
        [|discriminate].
      cbn [assert bind] in Hb.
      destruct (forallb _ (combine ss es)) eqn:Hall; [|discriminate].
      split; [exact Hlen|].
      rewrite forallb_forall in Hall. apply Forall_forall.
      intros [i j] Hin. specialize (Hall _ Hin). cbn in Hall.
      now apply Z.leb_le. }
    split; [exact Hv|]. intros E.
    rewrite (output_isoform_as_bed_valid _ _ Hv), (Hempty E) in Hb.
    discriminate.
  - intros [Hv Hne].
    rewrite (output_isoform_as_bed_valid _ _ Hv).
    destruct (exon_regions_cons isoform Hne (proj1 Hv))
      as (r0 & rest & E & Hchr & Hstrand).
    rewrite E, init_union, Hchr, Hstrand. cbn [negb].
    destruct (merged_spec r0 rest) as (_ & _ & Hlen).
    destruct (merged (r0 :: rest)) as [|o os];
      [cbn in Hlen; lia | eexists; reflexivity].
  - exact Hinvalid.
  - intros Es Ee.
    assert (Hv : valid isoform)
      by (unfold valid; rewrite Es, Ee; split; [reflexivity | constructor]).
    rewrite (output_isoform_as_bed_valid _ _ Hv). now apply Hempty.
Qed.

(** X5: folding the regions one by one gives the record of the two-pass
    computation (envelope first, then every offset against it), and stops
    with the strand assertion when, and only when, some region's strand
    differs from the first one's. *)
Theorem X5_fold_is_two_pass (self_regions : list Region) (name : string)
        (union : bool) (r0 : Region) (rest : list Region) :
  (Forall (fun r => r_strand r = r_strand r0) rest ->
   Bed._parse_regions self_regions name union (r0 :: rest)
   = Ok {| Bed.regions := self_regions; Bed.name := name; Bed.union := union;
           Bed.chrom := r_chr r0;
           Bed.start := minimum (start0 r0) (map start0 rest);
           Bed.end_ := maximum (r_end r0) (map r_end rest);
           Bed.strand := r_strand r0;
           Bed.block_count := Z.of_nat (List.length (r0 :: rest));
           Bed.block_sizes := map (fun r => r_end r - (r_start r - 1))
                                  (r0 :: rest);
           Bed.block_starts :=
             map (fun r => r_start r - 1
                           - minimum (start0 r0) (map start0 rest))
                 (r0 :: rest) |})
  /\ (~ Forall (fun r => r_strand r = r_strand r0) rest ->
      Bed._parse_regions self_regions name union (r0 :: rest)
      = Raise (AssertionError None)).
Proof.
  rewrite parse_regions_folded, <- same_strand_Forall.
  destruct (forallb (same_strand r0) rest); split; intros H;
    try reflexivity; try discriminate H; exfalso; now apply H.
Qed.

Lemma sorted_by_start_id (l : list Bed._region) :
  StronglySorted le_start l -> Bed.sorted_by_start l = l.
Proof.
  induction 1 as [|a l Hl IH Ha]; [reflexivity|].
  cbn [Bed.sorted_by_start]. rewrite IH.
  destruct l as [|b l]; [reflexivity|]. cbn [Bed.insert_by_start].
  inversion Ha as [|? ? Hab _]; subst. unfold le_start in Hab.
  now destruct (Z.leb_spec (Bed.start_ a) (Bed.start_ b)); [|lia].
Qed.

Lemma sweep_follows_id (rest : list Bed._region) :
  forall r1, StronglySorted follows (r1 :: rest) ->
             Bed.sweep r1 rest [] = r1 :: rest.
Proof.
  induction rest as [|r2 rest IH]; intros r1 H; [reflexivity|].
  inversion H as [|? ? Hrest H1]; subst.
  inversion H1 as [|? ? [H12 _] _]; subst.
  rewrite sweep_cons.
  destruct (Z.ltb_spec (Bed.end__ r1) (Bed.start_ r2)); [|lia].
  now rewrite (IH r2 Hrest).
Qed.

Lemma to_region_retag r0 (l : list Bed._region) :
  map to_region (map (retag r0) l) = l.
Proof.
  rewrite map_map. rewrite <- (map_id l) at 2.
  apply map_ext. now intros [s e].
Qed.

(** X6: running [get_union_regions] on its own result returns that result. *)
Theorem X6_union_idempotent (regions u : list Region) :
  Bed.get_union_regions regions = Ok u ->
  Bed.get_union_regions u = Ok u.
Proof.
  destruct regions as [|r0 rest]; [discriminate|].
  rewrite get_union_regions_cons.
  destruct (forallb (same_chr r0) rest); cbn [negb]; [|discriminate].
  destruct (forallb (same_strand r0) rest); cbn [negb]; [|discriminate].
  intros [= <-].
  destruct (merged_spec r0 rest) as (Hso & _ & Hlen).
  destruct (merged (r0 :: rest)) as [|o os]; [cbn in Hlen; lia|].
  cbn [map]. rewrite get_union_regions_cons.
  replace (forallb (same_chr (retag r0 o)) (map (retag r0) os)) with true.
  2:{ symmetry. rewrite forallb_map. apply forallb_forall. intros r _.
      unfold same_chr, retag. cbn. apply String.eqb_refl. }
  rewrite retag_same_strand. cbn [negb]. f_equal.
  unfold merged. fold to_region.
  change (retag r0 o :: map (retag r0) os) with (map (retag r0) (o :: os)).
  rewrite to_region_retag.
  rewrite sorted_by_start_id
    by (eapply StronglySorted_impl; [|exact Hso]; intros a b [_ H]; exact H).
  now rewrite (sweep_follows_id os o Hso).
Qed.

Lemma X6_union_idempotent_witness :
  Bed.get_union_regions [mkRegion "a" 5 15 "+"; mkRegion "a" 20 30 "+"]
  = Ok [mkRegion "a" 5 15 "+"; mkRegion "a" 20 30 "+"].
Proof.
  apply (X6_union_idempotent
           [mkRegion "a" 20 30 "+"; mkRegion "a" 10 15 "+";
            mkRegion "a" 5 12 "+"]).
  reflexivity.
Defined.

(** * Further properties: the written record as a block list *)

Lemma sweep_valid (rest : list Bed._region) :
  forall r1,
    Forall (fun r => Bed.start_ r <= Bed.end__ r) (r1 :: rest) ->
    Forall (fun r => Bed.start_ r <= Bed.end__ r) (Bed.sweep r1 rest []).
Proof.
  induction rest as [|r2 rest IH]; intros r1 H; [exact H|].
  inversion H as [|? ? H1 H']; subst. inversion H' as [|? ? H2 Hrest]; subst.
  rewrite sweep_cons. destruct (Bed.end__ r1 <? Bed.start_ r2).
  - constructor; [exact H1 | apply IH; exact H'].
  - apply IH. constructor; [|exact Hrest]. unfold extend. cbn. lia.
Qed.

Lemma merged_valid (r0 : Region) (rest : list Region) :
  Forall (fun r => r_start r <= r_end r) (r0 :: rest) ->
  Forall (fun r => Bed.start_ r <= Bed.end__ r) (merged (r0 :: rest)).
Proof.
  intros Hvalid. unfold merged. fold to_region.
  pose proof (sorted_by_start_perm (map to_region (r0 :: rest))) as Hp.
  assert (Hv : Forall (fun r => Bed.start_ r <= Bed.end__ r)
                      (Bed.sorted_by_start (map to_region (r0 :: rest)))).
  { eapply Permutation_Forall; [exact Hp|]. apply Forall_map. exact Hvalid. }
  destruct (Bed.sorted_by_start _) as [|r1 rs]; [constructor|].
  now apply sweep_valid.
Qed.

Lemma StronglySorted_consecutive {A : Type} (R : A -> A -> Prop) (l : list A) :
  StronglySorted R l ->
  forall i a b,
    nth_error l i = Some a -> nth_error l (S i) = Some b -> R a b.
Proof.
  induction 1 as [|x l Hl IH Hx]; intros i a b Ha Hb.
  - destruct i; discriminate.
  - destruct i as [|i].
    + cbn in Ha, Hb. injection Ha as <-.
      destruct l as [|y l]; [discriminate|]. cbn in Hb. injection Hb as <-.
      now inversion Hx.
    + cbn in Ha. change (nth_error l (S i) = Some b) in Hb. eauto.
Qed.

Lemma last_cons {A : Type} (l : list A) : forall a d, last (a :: l) d = last l a.
Proof.
  induction l as [|b l IH]; intros a d; [reflexivity|].
  change (last (a :: b :: l) d) with (last (b :: l) d).
  now rewrite (IH b d), (IH b a).
Qed.

Lemma last_map_cons {A B : Type} (f : A -> B) (l : list A) :
  forall a d, last (map f (a :: l)) d = f (last l a).
Proof.
  induction l as [|b l IH]; intros a d; [reflexivity|].
  change (map f (a :: b :: l)) with (f a :: map f (b :: l)).
  rewrite last_cons. rewrite (IH b (f a)). rewrite <- (last_cons l b a).
  reflexivity.
Qed.

Lemma maximum_sorted_last (lrest : list Region) :
  forall l0,
    StronglySorted region_follows (l0 :: lrest) ->
    Forall (fun r => r_start r <= r_end r) (l0 :: lrest) ->
    maximum (r_end l0) (map r_end lrest) = r_end (last lrest l0).
Proof.
  induction lrest as [|l1 lrest IH]; intros l0 Hs Hv; [reflexivity|].
  inversion Hs as [|? ? Hs' H0]; subst.
  inversion H0 as [|? ? [H01 _] _]; subst.
  inversion Hv as [|? ? _ Hv']; subst.
  inversion Hv' as [|? ? Hv1 _]; subst.
  cbn [map]. change (maximum (r_end l0) (r_end l1 :: map r_end lrest))
    with (maximum (Z.max (r_end l0) (r_end l1)) (map r_end lrest)).
  rewrite Z.max_r by lia. rewrite (IH l1 Hs' Hv').
  now rewrite (last_cons lrest l1 l0).
Qed.

Lemma folded_block_list sr nm un (l0 : Region) (lrest : list Region) :
  StronglySorted region_follows (l0 :: lrest) ->
  Forall (fun r => r_start r <= r_end r) (l0 :: lrest) ->
  let b := folded sr nm un l0 lrest in
  nth_error (Bed.block_starts b) 0 = Some 0
  /\ Forall (fun z => 1 <= z) (Bed.block_sizes b)
  /\ (forall i s z s',
         nth_error (Bed.block_starts b) i = Some s ->
         nth_error (Bed.block_sizes b) i = Some z ->
         nth_error (Bed.block_starts b) (S i) = Some s' ->
         s + z <= s')
  /\ last (Bed.block_starts b) 0 + last (Bed.block_sizes b) 0
     = Bed.end_ b - Bed.start b.
Proof.
  intros Hs Hv. cbv zeta. unfold folded.
  cbn [Bed.block_starts Bed.block_sizes Bed.start Bed.end_].
  assert (Hmin : minimum (start0 l0) (map start0 lrest) = start0 l0).
  { apply minimum_unique; [now left|].
    change (start0 l0 :: map start0 lrest) with (map start0 (l0 :: lrest)).
    apply Forall_map. constructor; [lia|].
    inversion Hs as [|? ? _ H0]; subst.
    eapply Forall_impl; [|exact H0].
    unfold region_follows, start0. intros; lia. }
  rewrite Hmin, (maximum_sorted_last lrest l0 Hs Hv).
  split; [|split; [|split]].
  - cbn. f_equal. lia.
  - apply Forall_map. eapply Forall_impl; [|exact Hv].
    unfold size, start0. intros; lia.
  - intros i s z s'. rewrite !nth_error_map.
    destruct (nth_error (l0 :: lrest) i) as [a|] eqn:Ea; [|discriminate].
    destruct (nth_error (l0 :: lrest) (S i)) as [b|] eqn:Eb; [|discriminate].
    cbn [option_map]. intros [= <-] [= <-] [= <-].
    destruct (StronglySorted_consecutive _ _ Hs i a b Ea Eb) as [Hab _].
    unfold size, start0. lia.
  - rewrite !last_map_cons. unfold size, start0. lia.
Qed.

(** X7: for a parsed line whose isoform is valid, the record that
    [output_isoform_as_bed] returns, which is the one the loop body prints
    to [isoforms.bed], has a block list in the form that a 12-field
    interval record requires: the first block starts at offset 0, every
    block has at least one position, each block ends at or before the
    start of the next, and the last block ends at the record's end. *)
Theorem X7_written_blocks_well_formed (line : string) (isoform : Isoform) :
  parse_isoform_data (rstrip_newline line) = Ok isoform ->
  valid isoform ->
  exists b,
    output_isoform_as_bed isoform (rstrip_newline line) = Ok b
    /\ (forall o, main_isoform line = Ok o -> isoform_bed o = b)
    /\ nth_error (Bed.block_starts b) 0 = Some 0
    /\ Forall (fun z => 1 <= z) (Bed.block_sizes b)
    /\ (forall i s z s',
           nth_error (Bed.block_starts b) i = Some s ->
           nth_error (Bed.block_sizes b) i = Some z ->
           nth_error (Bed.block_starts b) (S i) = Some s' ->
           s + z <= s')
    /\ last (Bed.block_starts b) 0 + last (Bed.block_sizes b) 0
       = Bed.end_ b - Bed.start b.
Proof.
  intros Hparse Hvalid.
  destruct (output_valid_folded line isoform Hparse Hvalid)
    as (r0 & rest & u0 & us & E & Eu & _ & _ & Hout).
  pose proof (exon_regions_valid isoform Hvalid) as Hv. rewrite E in Hv.
  destruct (merged_spec r0 rest) as (Hso & _ & _).
  pose proof (merged_valid r0 rest Hv) as Hmv.
  assert (Hus : StronglySorted region_follows (u0 :: us)).
  { rewrite <- Eu. apply StronglySorted_map.
    eapply StronglySorted_impl; [|exact Hso]. intros a b H. exact H. }
  assert (Huv : Forall (fun r => r_start r <= r_end r) (u0 :: us)).
  { rewrite <- Eu. apply Forall_map.
    eapply Forall_impl; [|exact Hmv]. intros a H. exact H. }
  eexists. split; [exact Hout|]. split.
  - intros o Ho.
    exact (proj1 (main_isoform_record line isoform _ o Hparse Hout Ho)).
  - exact (folded_block_list (u0 :: us) (rstrip_newline line) true u0 us
             Hus Huv).
Qed.

Lemma X7_written_blocks_well_formed_witness :
  (exists o, main_isoform "chr1|30,1,8|50,10,12|-" = Ok o
             /\ Bed.block_starts (isoform_bed o) = [0; 29]
             /\ Bed.block_sizes (isoform_bed o) = [12; 21])
  /\ exists b,
      output_isoform_as_bed (mkIsoform "chr1" [30; 1; 8] [50; 10; 12] "-")
                            (rstrip_newline "chr1|30,1,8|50,10,12|-") = Ok b
      /\ (forall o, main_isoform "chr1|30,1,8|50,10,12|-" = Ok o ->
                    isoform_bed o = b)
      /\ nth_error (Bed.block_starts b) 0 = Some 0
      /\ Forall (fun z => 1 <= z) (Bed.block_sizes b)
      /\ (forall i s z s',
             nth_error (Bed.block_starts b) i = Some s ->
             nth_error (Bed.block_sizes b) i = Some z ->
             nth_error (Bed.block_starts b) (S i) = Some s' ->
             s + z <= s')
      /\ last (Bed.block_starts b) 0 + last (Bed.block_sizes b) 0
         = Bed.end_ b - Bed.start b.
Proof.
  split; [eexists; repeat split; vm_compute; reflexivity|].
  apply (X7_written_blocks_well_formed
           "chr1|30,1,8|50,10,12|-"
           (mkIsoform "chr1" [30; 1; 8] [50; 10; 12] "-")).
  - reflexivity.
  - split; [reflexivity|]. repeat constructor; cbn; lia.
Defined.

(** * Further properties: the total length counts positions *)

Lemma In_positions (r : Bed._region) (p : Z) : In p (positions r) <-> cov r p.
Proof.
  unfold positions, cov, rsize. rewrite in_map_iff. split.
  - intros (i & <- & Hi). apply in_seq in Hi. lia.
  - intros H. exists (Z.to_nat (p - (Bed.start_ r - 1))). split; [lia|].
    apply in_seq. lia.
Qed.

Lemma NoDup_positions (r : Bed._region) : NoDup (positions r).
Proof.
  unfold positions. apply NoDup_map_NoDup_ForallPairs; [|apply seq_NoDup].
  intros i j _ _ H. lia.
Qed.

Lemma NoDup_flat_positions (l : list Bed._region) :
  StronglySorted follows l -> NoDup (flat_map positions l).
Proof.
  induction 1 as [|a l Hl IH Ha]; [constructor|].
  cbn [flat_map]. apply NoDup_app; [apply NoDup_positions | exact IH|].
  intros p Hp Hq. apply In_positions in Hp.
  apply in_flat_map_Exists, Exists_exists in Hq. destruct Hq as (b & Hb & Hq).
  apply In_positions in Hq. rewrite Forall_forall in Ha.
  destruct (Ha b Hb) as [Hab _]. unfold cov in *. lia.
Qed.

Lemma length_positions (r : Bed._region) :
  List.length (positions r) = Z.to_nat (rsize r).
Proof. unfold positions. now rewrite length_map, length_seq. Qed.

Lemma length_flat_positions (l : list Bed._region) :
  Forall (fun r => Bed.start_ r <= Bed.end__ r) l ->
  sum (map rsize l) = Z.of_nat (List.length (flat_map positions l)).
Proof.
  induction 1 as [|a l Ha Hl IH]; [reflexivity|].
  cbn [map flat_map]. rewrite sum_cons, length_app, IH, length_positions.
  unfold rsize. lia.
Qed.

(** X8: for a parsed line whose isoform is valid, the sum of the block
    sizes of the record that [output_isoform_as_bed] returns, which is the
    number the loop body writes to [isoforms.length.tsv], is the number of
    distinct 0-based positions that the exons cover: a position covered by
    several exons counts once. *)
Theorem X8_total_length_counts_positions (line : string) (isoform : Isoform) :
  parse_isoform_data (rstrip_newline line) = Ok isoform ->
  valid isoform ->
  exists b ps,
    output_isoform_as_bed isoform (rstrip_newline line) = Ok b
    /\ NoDup ps
    /\ (forall p, In p ps <-> covered_by (exon_regions isoform) p)
    /\ sum (Bed.block_sizes b) = Z.of_nat (List.length ps)
    /\ (forall o, main_isoform line = Ok o ->
                  snd (bed_len_out o) = Z.of_nat (List.length ps)).
Proof.
  intros Hparse Hvalid.
  destruct (output_valid_folded line isoform Hparse Hvalid)
    as (r0 & rest & u0 & us & E & Eu & _ & _ & Hout).
  pose proof (exon_regions_valid isoform Hvalid) as Hv. rewrite E in Hv.
  destruct (merged_spec r0 rest) as (Hso & Hcov & _).
  assert (Hsum : sum (Bed.block_sizes
                        (folded (u0 :: us) (rstrip_newline line) true u0 us))
                 = Z.of_nat (List.length
                               (flat_map positions (merged (r0 :: rest))))).
  { rewrite <- (length_flat_positions _ (merged_valid r0 rest Hv)).
    unfold folded. cbn [Bed.block_sizes].
    change (size u0 :: map size us) with (map size (u0 :: us)).
    now rewrite <- Eu, size_retag. }
  eexists. exists (flat_map positions (merged (r0 :: rest))).
  split; [exact Hout|]. split; [now apply NoDup_flat_positions|].
  split; [|split; [exact Hsum|]].
  - intros p. rewrite E, <- Hcov, in_flat_map_Exists.
    split; apply Exists_impl; intros a; apply In_positions.
  - intros o Ho.
    destruct (main_isoform_record line isoform _ o Hparse Hout Ho)
      as (_ & _ & Hrow).
    rewrite Hrow. cbn [snd]. exact Hsum.
Qed.

Lemma X8_total_length_counts_positions_witness :
  (exists o, main_isoform "chr1|1,3|5,8|+" = Ok o
             /\ snd (bed_len_out o) = 8)
  /\ exists b ps,
      output_isoform_as_bed (mkIsoform "chr1" [1; 3] [5; 8] "+")
                            (rstrip_newline "chr1|1,3|5,8|+") = Ok b
      /\ NoDup ps
      /\ (forall p, In p ps
                    <-> covered_by
                          (exon_regions (mkIsoform "chr1" [1; 3] [5; 8] "+"))
                          p)
      /\ sum (Bed.block_sizes b) = Z.of_nat (List.length ps)
      /\ (forall o, main_isoform "chr1|1,3|5,8|+" = Ok o ->
                    snd (bed_len_out o) = Z.of_nat (List.length ps)).
Proof.
  split; [eexists; split; vm_compute; reflexivity|].
  apply (X8_total_length_counts_positions
           "chr1|1,3|5,8|+" (mkIsoform "chr1" [1; 3] [5; 8] "+")).
  - reflexivity.
  - split; [reflexivity|]. repeat constructor; cbn; lia.
Defined.

(** * Further properties: names of the extracted sequences *)

Lemma rstrip_newline_LF (s : string) :
  rstrip_newline (String.append s (String LF EmptyString)) = rstrip_newline s.
Proof.
  induction s as [|c s IH]; [reflexivity|].
  cbn [String.append rstrip_newline]. now rewrite IH.
Qed.

Lemma rstrip_newline_no_LF (s : string) :
  has_char LF s = false -> rstrip_newline s = s.
Proof.
  induction s as [|c s IH]; [reflexivity|]. cbn [has_char rstrip_newline].
  intros H. apply orb_false_iff in H as [Hc Hs]. rewrite (IH Hs).
  destruct s; [|reflexivity]. unfold LF in Hc. now rewrite Hc.
Qed.

Lemma split_two sep a b :
  has_char sep a = false -> has_char sep b = false ->
  split sep (String.append a (String sep b)) = [a; b].
Proof.
  intros Ha Hb. now rewrite (split_app_sep sep a b Ha), (split_no_sep sep b Hb).
Qed.

Lemma strand_suffix_cases (s r : string) :
  strand_suffix s = Some r ->
  has_char ":" s = false
  /\ has_char ")" s = true
  /\ (r = EmptyString \/ has_char LF s = true).
Proof.
  unfold strand_suffix.
  destruct (String.eqb_spec s "(+)") as [->|_];
    [intros [= <-]; cbn; auto|].
  destruct (String.eqb_spec s "(-)") as [->|_];
    [intros [= <-]; cbn; auto|].
  cbn [orb].
  destruct (String.eqb_spec s (String.append "(+)" (String LF EmptyString)))
    as [->|_]; [intros [= <-]; cbn; auto|].
  destruct (String.eqb_spec s (String.append "(-)" (String LF EmptyString)))
    as [->|_]; [intros [= <-]; cbn; auto|].
  discriminate.
Qed.

Lemma sub_strand_cons c rest :
  sub_strand (String c rest)
  = match strand_suffix (String c rest) with
    | Some remainder => remainder
    | None => String c (sub_strand rest)
    end.
Proof. reflexivity. Qed.

Lemma sub_strand_no_LF (s : string) :
  has_char LF s = false -> has_char LF (sub_strand s) = false.
Proof.
  induction s as [|c s IH]; [reflexivity|]. intros H.
  rewrite sub_strand_cons.
  destruct (strand_suffix (String c s)) as [r|] eqn:E.
  - destruct (strand_suffix_cases _ _ E) as (_ & _ & [->|Hlf]);
      [reflexivity | congruence].
  - cbn [has_char] in *. apply orb_false_iff in H as [Hc Hs].
    now rewrite Hc, (IH Hs).
Qed.

Lemma sub_strand_with_colon c rest :
  has_char ":" (String c rest) = true ->
  sub_strand (String c rest) = String c (sub_strand rest).
Proof.
  intros H. rewrite sub_strand_cons.
  destruct (strand_suffix (String c rest)) as [r|] eqn:E; [|reflexivity].
  destruct (strand_suffix_cases _ _ E) as (Hno & _). congruence.
Qed.

Lemma sub_strand_keeps_prefix (a b : string) :
  sub_strand (String.append a (String ":" (String ":" b)))
  = String.append a (String ":" (String ":" (sub_strand b))).
Proof.
  induction a as [|c a IH]; cbn [String.append].
  - rewrite sub_strand_with_colon by reflexivity.
    rewrite sub_strand_with_colon by reflexivity. reflexivity.
  - rewrite sub_strand_with_colon, IH; [reflexivity|].
    cbn [has_char]. rewrite has_char_append. cbn [has_char].
    rewrite Ascii.eqb_refl, !orb_true_r. reflexivity.
Qed.

Lemma sub_strand_no_paren (s : string) :
  has_char ")" s = false -> sub_strand s = s.
Proof.
  induction s as [|c s IH]; [reflexivity|]. intros H.
  rewrite sub_strand_cons.
  destruct (strand_suffix (String c s)) as [r|] eqn:E.
  - destruct (strand_suffix_cases _ _ E) as (_ & Hp & _). congruence.
  - cbn [has_char] in H. apply orb_false_iff in H as [_ Hs].
    now rewrite (IH Hs).
Qed.

Lemma dot_star_end_no_LF (s : string) :
  has_char LF s = false -> dot_star_end s = Some EmptyString.
Proof.
  induction s as [|c s IH]; [reflexivity|]. cbn [has_char dot_star_end].
  intros H. apply orb_false_iff in H as [Hc Hs]. now rewrite Hc, (IH Hs).
Qed.

Lemma sub_coords_cons c rest :
  sub_coords (String c rest)
  = match (if Ascii.eqb c ":"
           then match rest with
                | String c' tail =>
                    if Ascii.eqb c' ":" then dot_star_end tail else None
                | EmptyString => None
                end
           else None) with
    | Some remainder => remainder
    | None => String c (sub_coords rest)
    end.
Proof.
  destruct (Ascii.eqb_spec c ":") as [->|Hc].
  - destruct rest as [|c' tail]; [reflexivity|].
    destruct (Ascii.eqb_spec c' ":") as [->|Hc']; [reflexivity|].
    destruct c' as [[] [] [] [] [] [] [] []]; congruence || reflexivity.
  - destruct c as [[] [] [] [] [] [] [] []]; congruence || reflexivity.
Qed.

Lemma sub_coords_prefix (a b : string) :
  has_double_colon (String.append a ":") = false ->
  has_char LF b = false ->
  sub_coords (String.append a (String ":" (String ":" b))) = a.
Proof.
  intros Ha Hb. induction a as [|c a IH]; cbn [String.append].
  - rewrite sub_coords_cons, Ascii.eqb_refl.
    now rewrite (dot_star_end_no_LF b Hb).
  - cbn [String.append has_double_colon] in Ha.
    apply orb_false_iff in Ha as [Hc Ha].
    rewrite sub_coords_cons, (IH Ha).
    destruct (Ascii.eqb c ":"); [|reflexivity]. cbn [andb] in Hc.
    destruct a as [|c' a]; cbn [String.append] in *.
    + discriminate Hc.
    + now rewrite Hc.
Qed.

Lemma sub_coords_no_double_colon (s : string) :
  has_double_colon s = false -> sub_coords s = s.
Proof.
  induction s as [|c s IH]; [reflexivity|]. cbn [has_double_colon].
  intros H. apply orb_false_iff in H as [Hc Hs].
  rewrite sub_coords_cons, (IH Hs).
  destruct (Ascii.eqb c ":"); [|reflexivity]. cbn [andb] in Hc.
  destruct s as [|c' s]; [reflexivity|]. now rewrite Hc.
Qed.

(** X9: from a line of the tool's output whose first field is a name
    followed by [::] and a decoration, [get_fasta] yields the name and the
    sequence, provided the name has no two colons in a row and does not end
    in a colon, and no field holds a tab or a newline. *)
Theorem X9_decorated_name_recovered (name deco fa_seq : string) :
  has_double_colon (String.append name ":") = false ->
  has_char TAB name = false -> has_char LF name = false ->
  has_char TAB deco = false -> has_char LF deco = false ->
  has_char TAB fa_seq = false -> has_char LF fa_seq = false ->
  get_fasta_line
    (String.append
       (String.append
          (String.append name (String ":" (String ":" deco)))
          (String TAB fa_seq))
       (String LF EmptyString))
  = Ok (name, fa_seq).
Proof.
  intros Hcc Htn Hln Htd Hld Hts Hls. unfold get_fasta_line.
  rewrite rstrip_newline_LF.
  assert (Hfield : forall c, has_char c name = false ->
                     has_char c deco = false -> Ascii.eqb ":" c = false ->
                     has_char c (String.append name
                                   (String ":" (String ":" deco))) = false).
  { intros c Hn Hd Hc. rewrite has_char_append. cbn [has_char].
    now rewrite Hn, Hd, Hc. }
  rewrite rstrip_newline_no_LF.
  2:{ rewrite has_char_append. cbn [has_char].
      rewrite (Hfield LF Hln Hld eq_refl), Hls. reflexivity. }
  rewrite split_two by (auto using Hfield).
  rewrite sub_strand_keeps_prefix.
  rewrite (sub_coords_prefix name _ Hcc (sub_strand_no_LF deco Hld)).
  reflexivity.
Qed.

Lemma X9_decorated_name_recovered_witness :
  get_fasta_line
    (String.append "chr1|1,3|5,8|+::chr1:0-8(+)"
       (String TAB (String.append "ACGTACGT" (String LF EmptyString))))
  = Ok ("chr1|1,3|5,8|+", "ACGTACGT").
Proof.
  apply (X9_decorated_name_recovered
           "chr1|1,3|5,8|+" "chr1:0-8(+)" "ACGTACGT"); reflexivity.
Defined.

(** X10: a name without [::] and without a closing parenthesis is yielded
    as it is. *)
Theorem X10_plain_name_unchanged (name fa_seq : string) :
  has_double_colon name = false -> has_char ")" name = false ->
  has_char TAB name = false -> has_char LF name = false ->
  has_char TAB fa_seq = false -> has_char LF fa_seq = false ->
  get_fasta_line
    (String.append (String.append name (String TAB fa_seq))
                   (String LF EmptyString))
  = Ok (name, fa_seq).
Proof.
  intros Hcc Hp Htn Hln Hts Hls. unfold get_fasta_line.
  rewrite rstrip_newline_LF, rstrip_newline_no_LF.
  2:{ rewrite has_char_append. cbn [has_char]. now rewrite Hln, Hls. }
  rewrite (split_two TAB name fa_seq Htn Hts).
  now rewrite (sub_strand_no_paren name Hp), (sub_coords_no_double_colon name Hcc).
Qed.

Lemma X10_plain_name_unchanged_witness :
  get_fasta_line
    (String.append "chr1|1,3|5,8|+"
       (String TAB (String.append "ACGTACGT" (String LF EmptyString))))
  = Ok ("chr1|1,3|5,8|+", "ACGTACGT").
Proof.
  apply (X10_plain_name_unchanged "chr1|1,3|5,8|+" "ACGTACGT"); reflexivity.
Defined.

(** X11: a line of the tool's output that, without its trailing newlines,
    does not hold exactly one tab makes [get_fasta] raise [ValueError]. *)
Theorem X11_fasta_field_count (line : string) :
  count_char TAB (rstrip_newline line) <> 1%nat ->
  get_fasta_line line = Raise ValueError.
Proof.
  intros H. unfold get_fasta_line.
  pose proof (split_length TAB (rstrip_newline line)) as Hlen.
  destruct (split TAB (rstrip_newline line)) as [|f0 [|f1 [|f2 fs]]];
    try reflexivity.
  cbn [List.length] in Hlen. exfalso. apply H. lia.
Qed.

Lemma X11_fasta_field_count_witness :
  get_fasta_line "name_without_sequence" = Raise ValueError.
Proof.
  apply (X11_fasta_field_count "name_without_sequence"). cbn. discriminate.
Defined.

(** * Further properties: the sort *)

Lemma filter_insert_by_start (k : Z) (r : Bed._region) (l : list Bed._region) :
  filter (fun x => Bed.start_ x =? k) (Bed.insert_by_start r l)
  = filter (fun x => Bed.start_ x =? k) (r :: l).
Proof.
  induction l as [|a l IH]; [reflexivity|]. cbn [Bed.insert_by_start].
  destruct (Z.leb_spec (Bed.start_ r) (Bed.start_ a)) as [_|Hlt];
    [reflexivity|].
  cbn [filter] in *. rewrite IH.
  destruct (Z.eqb_spec (Bed.start_ a) k), (Z.eqb_spec (Bed.start_ r) k);
    try reflexivity; lia.
Qed.

(** X12: the sort behind [sorted(..., key=lambda r: r.start)] returns a
    rearrangement of its input in ascending order of start, which keeps
    intervals of equal start in the order they came in. *)
Theorem X12_sorted_by_start_stable (l : list Bed._region) :
  StronglySorted (fun a b => Bed.start_ a <= Bed.start_ b)
                 (Bed.sorted_by_start l)
  /\ Permutation l (Bed.sorted_by_start l)
  /\ (forall k,
         filter (fun x => Bed.start_ x =? k) (Bed.sorted_by_start l)
         = filter (fun x => Bed.start_ x =? k) l).
Proof.
  split; [apply sorted_by_start_sorted|].
  split; [apply sorted_by_start_perm|].
  intros k. induction l as [|a l IH]; [reflexivity|].
  cbn [Bed.sorted_by_start]. rewrite filter_insert_by_start.
  cbn [filter]. now rewrite IH.
Qed.

(** * Further properties: the printed record *)

Lemma str_no_tab (f : Bed.field) (txt : string) :
  field_no_tab f -> Bed.str f = Ok txt -> has_char TAB txt = false.
Proof.
  destruct f as [s|n]; cbn [field_no_tab].
  - intros H [= <-]. exact H.
  - intros _ H.
    apply (has_char_forall TAB digit_or_minus); [reflexivity|].
    exact (str_int_chars n txt H).
Qed.

Lemma map_result_str_no_tab (fields : list Bed.field) :
  Forall field_no_tab fields ->
  forall strs, map_result Bed.str fields = Ok strs ->
               Forall (fun x => has_char TAB x = false) strs.
Proof.
  induction 1 as [|f fields Hf Hfields IH]; intros strs H.
  - injection H as <-. constructor.
  - apply map_result_cons_inv in H as (y & ys & -> & Hy & Hys).
    constructor; [exact (str_no_tab f y Hf Hy) | now apply IH].
Qed.

Lemma get_data_inv (b : Bed.t) (all_fields : bool) (fields : list Bed.field) :
  has_char TAB (Bed.chrom b) = false ->
  has_char TAB (Bed.name b) = false ->
  has_char TAB (Bed.strand b) = false ->
  Bed.get_data b all_fields = Ok fields ->
  Forall field_no_tab fields
  /\ List.length fields = (if all_fields then 12 else 6)%nat.
Proof.
  intros Hc Hn Hs. unfold Bed.get_data. destruct all_fields.
  - destruct (Bed._list_to_str (map Bed.FInt (Bed.block_sizes b)) ",")
      as [sizes|] eqn:Esizes; [|discriminate].
    cbn [bind].
    destruct (Bed._list_to_str (map Bed.FInt (Bed.block_starts b)) ",")
      as [starts|] eqn:Estarts; [|discriminate].
    cbn [bind]. intros [= <-]. split; [|reflexivity].
    pose proof (printed_ints_no_char TAB _ _ eq_refl eq_refl Esizes).
    pose proof (printed_ints_no_char TAB _ _ eq_refl eq_refl Estarts).
    cbn [app]. repeat constructor; assumption.
  - intros [= <-]. split; [|reflexivity].
    repeat constructor; assumption.
Qed.

(** X13: where [to_string] returns, splitting its result at the tabs gives
    back the texts of the fields of [get_data], six or twelve of them, as
    long as the chromosome, the name and the strand hold no tab. *)
Theorem X13_to_string_fields (b : Bed.t) (all_fields : bool) (txt : string) :
  has_char TAB (Bed.chrom b) = false ->
  has_char TAB (Bed.name b) = false ->
  has_char TAB (Bed.strand b) = false ->
  Bed.to_string b all_fields = Ok txt ->
  exists fields strs,
    Bed.get_data b all_fields = Ok fields
    /\ map_result Bed.str fields = Ok strs
    /\ split TAB txt = strs
    /\ List.length strs = (if all_fields then 12 else 6)%nat.
Proof.
  intros Hc Hn Hs. unfold Bed.to_string.
  destruct (Bed.get_data b all_fields) as [fields|] eqn:Edata; [|discriminate].
  cbn [bind]. intros Htxt.
  apply list_to_str_inv in Htxt as (strs & Hstrs & ->).
  destruct (get_data_inv b all_fields fields Hc Hn Hs Edata) as [Hnt Hlen].
  pose proof (map_result_length _ _ _ Hstrs) as Hl.
  exists fields, strs. split; [reflexivity|]. split; [exact Hstrs|].
  split; [|now rewrite Hl, Hlen].
  apply (split_concat TAB).
  - destruct strs; [|discriminate]. cbn in Hl. rewrite Hlen in Hl.
    destruct all_fields; discriminate.
  - exact (map_result_str_no_tab fields Hnt strs Hstrs).
Qed.

Lemma X13_to_string_fields_witness :
  exists fields strs,
    Bed.get_data (folded [] "x" true (mkRegion "chr1" 1 8 "+") []) true
    = Ok fields
    /\ map_result Bed.str fields = Ok strs
    /\ split TAB
         (String.concat (String TAB EmptyString)
            ["chr1"; "0"; "8"; "x"; "."; "+"; "0"; "8"; "0"; "1"; "8"; "0"])
       = strs
    /\ List.length strs = 12%nat.
Proof.
  apply (X13_to_string_fields
           (folded [] "x" true (mkRegion "chr1" 1 8 "+") []) true);
    reflexivity.
Defined.

(** * Further properties: the name of the record *)

Lemma output_ok_valid (isoform : Isoform) (name : string) (b : Bed.t) :
  output_isoform_as_bed isoform name = Ok b -> valid isoform.
Proof.
  unfold output_isoform_as_bed, valid.
  destruct (Nat.eqb_spec (List.length (starts isoform))
                         (List.length (ends isoform))) as [Hlen|];
    [|discriminate].
  cbn [assert bind].
  destruct (forallb _ (combine (starts isoform) (ends isoform))) eqn:Hall;
    [|discriminate].
  intros _. split; [exact Hlen|].
  rewrite forallb_forall in Hall. apply Forall_forall.
  intros [i j] Hin. specialize (Hall _ Hin). cbn in Hall.
  now apply Z.leb_le.
Qed.

(** X14: a newline at the end of the input line changes nothing, and
    where a record is written, its name and the first column of its length
    row are the input line without its trailing newlines. *)
Theorem X14_record_named_after_line (line : string) :
  main_isoform (String.append line (String LF EmptyString))
  = main_isoform line
  /\ (forall o, main_isoform line = Ok o ->
                Bed.name (isoform_bed o) = rstrip_newline line
                /\ fst (bed_len_out o) = rstrip_newline line).
Proof.
  split.
  - unfold main_isoform. now rewrite rstrip_newline_LF.
  - intros o Ho.
    destruct (main_isoform_inv line o Ho) as (isoform & Hparse & Hb & _ & Hrow).
    pose proof (output_ok_valid _ _ _ Hb) as Hvalid.
    destruct (output_valid_folded line isoform Hparse Hvalid)
      as (r0 & rest & u0 & us & _ & _ & _ & _ & Hout).
    rewrite Hout in Hb. injection Hb as Hb. rewrite <- Hb, Hrow.
    split; reflexivity.
Qed.

(** * Further properties: how a line can fail *)

Lemma int_error (s : string) (e : exn) : int s = Raise e -> e = ValueError.
Proof.
  unfold int. cbv zeta.
  match goal with
  | |- match ?body with _ => _ end = _ -> _ => destruct body
  end; [|intros H; congruence].
  destruct (Nat.leb _ int_max_str_digits); [discriminate|].
  intros H; congruence.
Qed.

Lemma map_result_int_error (l : list string) (e : exn) :
  map_result int l = Raise e -> e = ValueError.
Proof.
  induction l as [|s l IH]; [discriminate|]. cbn [map_result].
  destruct (int s) as [n|e'] eqn:E; cbn [bind].
  - destruct (map_result int l) as [ns|e'']; cbn [bind]; [discriminate|].
    intros [= <-]. now apply IH.
  - intros [= <-]. exact (int_error s e' E).
Qed.

Lemma parse_error (isoform_string : string) (e : exn) :
  parse_isoform_data isoform_string = Raise e -> e = ValueError.
Proof.
  unfold parse_isoform_data.
  destruct (split "|" isoform_string) as [|f0 [|f1 [|f2 [|f3 [|f4 fs]]]]];
    try (now intros [= <-]).
  destruct (map_result int (split "," f1)) as [ss|e1] eqn:E1; cbn [bind].
  - destruct (map_result int (split "," f2)) as [es|e2] eqn:E2; cbn [bind];
      [discriminate|].
    intros [= <-]. exact (map_result_int_error _ _ E2).
  - intros [= <-]. exact (map_result_int_error _ _ E1).
Qed.

Lemma str_error (f : Bed.field) (e : exn) :
  Bed.str f = Raise e -> e = ValueError.
Proof.
  destruct f as [s|n]; cbn [Bed.str]; [discriminate|].
  destruct (Nat.leb _ int_max_str_digits); [discriminate|].
  now intros [= <-].
Qed.

Lemma list_to_str_error (l : list Bed.field) (sep : string) (e : exn) :
  Bed._list_to_str l sep = Raise e -> e = ValueError.
Proof.
  unfold Bed._list_to_str.
  destruct (map_result Bed.str l) as [strs|e'] eqn:E; [discriminate|].
  cbn [bind]. intros [= <-]. clear sep. revert e' E.
  induction l as [|f l IH]; intros e' E; [discriminate|].
  cbn [map_result] in E.
  destruct (Bed.str f) as [y|e''] eqn:Ef; cbn [bind] in E.
  - destruct (map_result Bed.str l) as [ys|e3]; cbn [bind] in E;
      [discriminate|].
    injection E as <-. now apply IH.
  - injection E as <-. exact (str_error f e'' Ef).
Qed.

Lemma to_string_error (b : Bed.t) (all_fields : bool) (e : exn) :
  Bed.to_string b all_fields = Raise e -> e = ValueError.
Proof.
  unfold Bed.to_string, Bed.get_data. destruct all_fields.
  - destruct (Bed._list_to_str (map Bed.FInt (Bed.block_sizes b)) ",")
      as [sizes|e1] eqn:E1; cbn [bind];
      [|intros [= <-]; exact (list_to_str_error _ _ _ E1)].
    destruct (Bed._list_to_str (map Bed.FInt (Bed.block_starts b)) ",")
      as [starts|e2] eqn:E2; cbn [bind];
      [|intros [= <-]; exact (list_to_str_error _ _ _ E2)].
    apply list_to_str_error.
  - cbn [bind]. apply list_to_str_error.
Qed.

(** X15: when the body of the main loop completes, the line has parsed to
    an isoform that passes both assertions; a line that does not parse
    raises [ValueError], and one that parses to an isoform failing an
    assertion raises the plain assertion error; a line that parses to an
    isoform passing both either completes or raises [ValueError], from
    printing an integer.  No line raises anything but these two: no index
    error, and neither assertion of the union. *)
Theorem X15_main_isoform_outcomes (line : string) :
  (forall o, main_isoform line = Ok o ->
             exists isoform,
               parse_isoform_data (rstrip_newline line) = Ok isoform
               /\ valid isoform)
  /\ (forall e, parse_isoform_data (rstrip_newline line) = Raise e ->
                main_isoform line = Raise ValueError)
  /\ (forall isoform,
         parse_isoform_data (rstrip_newline line) = Ok isoform ->
         ~ valid isoform ->
         main_isoform line = Raise (AssertionError None))
  /\ (forall isoform,
         parse_isoform_data (rstrip_newline line) = Ok isoform ->
         valid isoform ->
         (exists o, main_isoform line = Ok o)
         \/ main_isoform line = Raise ValueError)
  /\ (forall e, main_isoform line = Raise e ->
                e = ValueError \/ e = AssertionError None).
Proof.
  assert (Hinvalid : forall isoform name, ~ valid isoform ->
            output_isoform_as_bed isoform name = Raise (AssertionError None)).
  { intros isoform name Hnv.
    destruct (output_isoform_as_bed isoform name) as [b|e] eqn:E.
    - exfalso. apply Hnv. exact (output_ok_valid _ _ _ E).
    - revert E. unfold output_isoform_as_bed.
      destruct (Nat.eqb (List.length (starts isoform))
                        (List.length (ends isoform))) eqn:Hlen;
        cbn [assert bind]; [|congruence].
      destruct (forallb _ (combine (starts isoform) (ends isoform))) eqn:Hall;
        cbn [assert bind]; [|congruence].
      intros E. exfalso. apply Hnv. split; [now apply Nat.eqb_eq|].
      rewrite forallb_forall in Hall. apply Forall_forall.
      intros [i j] Hin. specialize (Hall _ Hin). cbn in Hall.
      now apply Z.leb_le. }
  split; [|split; [|split; [|split]]].
  - intros o Ho.
    destruct (main_isoform_inv line o Ho) as (isoform & Hparse & Hb & _).
    exists isoform. split; [exact Hparse|]. exact (output_ok_valid _ _ _ Hb).
  - intros e He. unfold main_isoform. rewrite He. cbn [bind].
    now rewrite (parse_error _ _ He).
  - intros isoform Hp Hnv. unfold main_isoform. rewrite Hp. cbn [bind].
    now rewrite (Hinvalid isoform _ Hnv).
  - intros isoform Hp Hv.
    destruct (output_valid_folded line isoform Hp Hv)
      as (r0 & rest & u0 & us & _ & _ & _ & _ & Hout).
    unfold main_isoform. rewrite Hp. cbn [bind]. rewrite Hout. cbn [bind].
    destruct (Bed.to_string _ true) as [txt|e3] eqn:Et; cbn [bind].
    2:{ right. now rewrite (to_string_error _ _ _ Et). }
    destruct (Bed._list_to_str _ _) as [row|e4] eqn:Er; cbn [bind].
    + left. eexists. reflexivity.
    + right. now rewrite (list_to_str_error _ _ _ Er).
  - intros e. unfold main_isoform.
    destruct (parse_isoform_data (rstrip_newline line)) as [isoform|e']
      eqn:Hp; cbn [bind].
    2:{ intros [= <-]. left. exact (parse_error _ _ Hp). }
    destruct (output_isoform_as_bed isoform (rstrip_newline line))
      as [b|e''] eqn:Eb; cbn [bind].
    2:{ intros [= <-]. right.
        assert (Hnv : ~ valid isoform).
        { intros Hv.
          destruct (output_valid_folded line isoform Hp Hv)
            as (r0 & rest & u0 & us & _ & _ & _ & _ & Hout).
          rewrite Hout in Eb. discriminate. }
        rewrite (Hinvalid isoform _ Hnv) in Eb. congruence. }
    destruct (Bed.to_string b true) as [txt|e3] eqn:Et; cbn [bind].
    2:{ intros [= <-]. left. exact (to_string_error _ _ _ Et). }
    destruct (Bed._list_to_str _ _) as [row|e4] eqn:Er; cbn [bind];
      [discriminate|].
    intros [= <-]. left. exact (list_to_str_error _ _ _ Er).
Qed.

(** * Further properties: when every integer prints *)

Lemma count_digits_string_of_uint (d : Decimal.uint) :
  count_digits (NilEmpty.string_of_uint d) = N.to_nat (Unsigned.usize d).
Proof.
  induction d; [reflexivity|..];
    cbn [NilEmpty.string_of_uint Unsigned.usize];
    rewrite N2Nat.inj_succ, <- IHd; reflexivity.
Qed.

Lemma to_uint_head (p : positive) :
  Pos.to_uint p <> Decimal.Nil /\ forall x, Pos.to_uint p <> Decimal.D0 x.
Proof.
  split; [apply Unsigned.to_uint_nonnil|]. intros x Hx.
  pose proof (Unsigned.to_of (Pos.to_uint p)) as Hn.
  rewrite Unsigned.of_to in Hn. cbn [N.to_uint] in Hn.
  rewrite Hx in Hn. rewrite DecimalFacts.unorm_D0 in Hn.
  unfold Decimal.unorm in Hn.
  destruct (Decimal.nzhead x) eqn:E; try discriminate Hn.
  - injection Hn as ->. apply (Unsigned.to_uint_nonzero p). exact Hx.
  - injection Hn as ->. apply (DecimalFacts.nzhead_nonzero u u). exact E.
Qed.

Lemma of_lu_rev_lower (d : Decimal.uint) :
  d <> Decimal.Nil -> (forall x, d <> Decimal.D0 x) ->
  (10 ^ N.pred (Unsigned.usize d) <= Unsigned.of_lu (Decimal.rev d))%N.
Proof.
  intros Hnil Hzero.
  destruct d as [|d|d|d|d|d|d|d|d|d|d];
    [congruence | exfalso; now apply (Hzero d) | ..];
    unfold Decimal.rev; cbn [Decimal.revapp];
    rewrite Unsigned.of_lu_revapp; cbn [Unsigned.of_lu Unsigned.usize];
    rewrite N.pred_succ;
    generalize (10 ^ Unsigned.usize d)%N
               (Unsigned.of_lu (Decimal.rev d)); intros t r; lia.
Qed.

Lemma digits_within_limit (p : positive) :
  prints (Z.pos p) ->
  Nat.leb (count_digits (NilEmpty.string_of_uint (Pos.to_uint p)))
          int_max_str_digits = true.
Proof.
  unfold prints. intros Hp. rewrite count_digits_string_of_uint.
  apply Nat.leb_le.
  destruct (to_uint_head p) as [Hnil Hzero].
  pose proof (of_lu_rev_lower _ Hnil Hzero) as Hlow.
  rewrite <- Unsigned.of_uint_alt, Unsigned.of_to in Hlow.
  assert (Hsize : (Unsigned.usize (Pos.to_uint p) <= 4300)%N).
  { apply N.le_ngt. intros Hgt.
    assert (Hpow : (10 ^ 4300 <= 10 ^ N.pred (Unsigned.usize (Pos.to_uint p)))%N)
      by (apply N.pow_le_mono_r; [discriminate|];
          apply N.lt_le_pred; exact Hgt).
    pose proof (N.le_trans _ _ _ Hpow Hlow) as Hle.
    apply N2Z.inj_le in Hle. rewrite N2Z.inj_pow in Hle.
    change (Z.of_N 10) with 10 in Hle. change (Z.of_N 4300) with 4300 in Hle.
    change (Z.of_N (N.pos p)) with (Z.pos p) in Hle.
    change (Z.abs (Z.pos p)) with (Z.pos p) in Hp.
    exact (Z.lt_irrefl _ (Z.le_lt_trans _ _ _ Hle Hp)). }
  clear Hp Hlow. unfold int_max_str_digits. lia.
Qed.

Lemma str_within_limit (n : Z) :
  prints n -> exists txt, Bed.str (Bed.FInt n) = Ok txt.
Proof.
  intros Hn. unfold Bed.str. cbv zeta. destruct n as [|p|p].
  - eexists. reflexivity.
  - rewrite (proj1 (string_of_int_sign p)), digits_within_limit by exact Hn.
    eexists. reflexivity.
  - rewrite (proj2 (string_of_int_sign p)), count_digits_minus,
      digits_within_limit by exact Hn.
    eexists. reflexivity.
Qed.

Lemma map_result_total {A B : Type} (f : A -> result B) (l : list A) :
  Forall (fun x => exists y, f x = Ok y) l -> exists ys, map_result f l = Ok ys.
Proof.
  induction 1 as [|x l [y Hy] _ [ys Hys]]; cbn [map_result].
  - eexists. reflexivity.
  - rewrite Hy, Hys. eexists. reflexivity.
Qed.

Lemma list_to_str_total (l : list Bed.field) (sep : string) :
  Forall field_prints l -> exists txt, Bed._list_to_str l sep = Ok txt.
Proof.
  intros H. unfold Bed._list_to_str.
  destruct (map_result_total Bed.str l) as [strs ->].
  - eapply Forall_impl; [|exact H]. intros [s|n] Hf.
    + eexists. reflexivity.
    + now apply str_within_limit.
  - eexists. reflexivity.
Qed.

Lemma to_string_total (b : Bed.t) :
  prints (Bed.start b) -> prints (Bed.end_ b) -> prints (Bed.block_count b) ->
  Forall prints (Bed.block_sizes b) -> Forall prints (Bed.block_starts b) ->
  exists txt, Bed.to_string b true = Ok txt.
Proof.
  intros Hs He Hc Hsz Hst. unfold Bed.to_string, Bed.get_data. cbv zeta.
  destruct (list_to_str_total (map Bed.FInt (Bed.block_sizes b)) ",")
    as [sizes_txt ->]; [now apply Forall_map|].
  destruct (list_to_str_total (map Bed.FInt (Bed.block_starts b)) ",")
    as [starts_txt ->]; [now apply Forall_map|].
  cbn [bind app]. apply list_to_str_total.
  assert (H0 : prints 0) by (unfold prints; cbn [Z.abs]; now apply Z.pow_pos_nonneg).
  repeat constructor; assumption.
Qed.

Lemma sorted_sum_size (lrest : list Region) :
  forall l0,
    StronglySorted region_follows (l0 :: lrest) ->
    Forall (fun r => r_start r <= r_end r) (l0 :: lrest) ->
    sum (map size (l0 :: lrest)) <= r_end (last lrest l0) - start0 l0.
Proof.
  induction lrest as [|l1 lrest IH]; intros l0 Hs Hv.
  - cbn [map last]. rewrite sum_cons. unfold sum, size. cbn. lia.
  - inversion Hs as [|? ? Hs' H0]; subst.
    inversion H0 as [|? ? [H01 _] _]; subst.
    inversion Hv as [|? ? _ Hv']; subst.
    specialize (IH l1 Hs' Hv').
    change (map size (l0 :: l1 :: lrest))
      with (size l0 :: map size (l1 :: lrest)).
    rewrite sum_cons, (last_cons lrest l1 l0).
    unfold size, start0 in *. lia.
Qed.

Lemma length_le_sum (l : list Z) :
  Forall (fun z => 1 <= z) l -> Z.of_nat (List.length l) <= sum l.
Proof.
  induction 1 as [|x l Hx _ IH]; [reflexivity|].
  rewrite sum_cons. cbn [List.length]. lia.
Qed.

Lemma exon_regions_bounded (isoform : Isoform) (B : Z) :
  Forall (fun z => Z.abs z <= B) (starts isoform) ->
  Forall (fun z => Z.abs z <= B) (ends isoform) ->
  Forall (fun r => Z.abs (r_start r) <= B /\ Z.abs (r_end r) <= B)
         (exon_regions isoform).
Proof.
  intros Hs He. unfold exon_regions. apply Forall_map, Forall_forall.
  intros [s e] Hin. cbn [r_start r_end]. rewrite Forall_forall in Hs, He.
  split; [apply Hs; eapply in_combine_l | apply He; eapply in_combine_r];
    exact Hin.
Qed.

Lemma coordinate_bound_prints (n : Z) :
  Z.abs n <= 2 * coordinate_bound + 1 -> prints n.
Proof.
  unfold prints, coordinate_bound. change 4300 with (Z.succ 4299).
  rewrite Z.pow_succ_r by discriminate.
  assert (H : 0 < 10 ^ 4299) by now apply Z.pow_pos_nonneg.
  revert H. generalize (10 ^ 4299). intros B HB Hn. lia.
Qed.

Lemma minimum_sorted_first (l0 : Region) (lrest : list Region) :
  StronglySorted region_follows (l0 :: lrest) ->
  minimum (start0 l0) (map start0 lrest) = start0 l0.
Proof.
  intros Hs. apply minimum_unique; [now left|].
  change (start0 l0 :: map start0 lrest) with (map start0 (l0 :: lrest)).
  apply Forall_map. constructor; [lia|].
  inversion Hs as [|? ? _ H0]; subst.
  eapply Forall_impl; [|exact H0].
  unfold region_follows, start0. intros; lia.
Qed.

Lemma folded_prints sr nm un (l0 : Region) (lrest : list Region) :
  StronglySorted region_follows (l0 :: lrest) ->
  Forall (fun r => r_start r <= r_end r) (l0 :: lrest) ->
  let b := folded sr nm un l0 lrest in
  Z.abs (Bed.start b) <= coordinate_bound + 1 ->
  Z.abs (Bed.end_ b) <= coordinate_bound ->
  (exists txt, Bed.to_string b true = Ok txt)
  /\ prints (sum (Bed.block_sizes b)).
Proof.
  intros Hs Hv b Hstart Hend.
  assert (HB : 0 < coordinate_bound) by now apply Z.pow_pos_nonneg.
  pose proof (sorted_sum_size lrest l0 Hs Hv) as Hsum.
  rewrite <- (maximum_sorted_last lrest l0 Hs Hv),
    <- (minimum_sorted_first l0 lrest Hs) in Hsum.
  change (sum (Bed.block_sizes b) <= Bed.end_ b - Bed.start b) in Hsum.
  assert (Hsizes : Forall (fun z => 1 <= z) (Bed.block_sizes b)).
  { apply Forall_map. eapply Forall_impl; [|exact Hv].
    unfold size, start0. intros; lia. }
  pose proof (length_le_sum _ Hsizes) as Hcount.
  assert (Hcnt : Bed.block_count b = Z.of_nat (List.length (Bed.block_sizes b)))
    by (unfold b, folded; cbn [Bed.block_count Bed.block_sizes];
        now rewrite length_map).
  assert (Hin : Forall (fun r => Bed.start b <= start0 r
                                 /\ r_end r <= Bed.end_ b
                                 /\ r_start r <= r_end r) (l0 :: lrest)).
  { pose proof (minimum_lower (map start0 lrest) (start0 l0)) as Hlow.
    pose proof (maximum_upper (map r_end lrest) (r_end l0)) as Hup.
    change (start0 l0 :: map start0 lrest)
      with (map start0 (l0 :: lrest)) in Hlow.
    change (r_end l0 :: map r_end lrest) with (map r_end (l0 :: lrest)) in Hup.
    rewrite Forall_map in Hlow, Hup. rewrite Forall_forall in *.
    intros r Hr. repeat split; [apply Hlow | apply Hup | apply Hv]; exact Hr. }
  assert (Hsz : Forall (fun z => 1 <= z <= Bed.end_ b - Bed.start b)
                       (Bed.block_sizes b)).
  { apply Forall_map. eapply Forall_impl; [|exact Hin].
    intros r (H1 & H2 & H3). unfold size, start0.
    revert H1 H2 H3. unfold start0.
    generalize (Bed.start b) (Bed.end_ b). intros; lia. }
  assert (Hst : Forall (fun z => 0 <= z <= Bed.end_ b - Bed.start b)
                       (Bed.block_starts b)).
  { apply Forall_map. eapply Forall_impl; [|exact Hin].
    intros r (H1 & H2 & H3).
    change (0 <= start0 r - Bed.start b <= Bed.end_ b - Bed.start b).
    revert H1 H2 H3. unfold start0.
    generalize (Bed.start b) (Bed.end_ b). intros; lia. }
  clearbody b. clear Hin Hsizes.
  split.
  - apply to_string_total.
    + apply coordinate_bound_prints. lia.
    + apply coordinate_bound_prints. lia.
    + apply coordinate_bound_prints. lia.
    + eapply Forall_impl; [|exact Hsz].
      intros z Hz. cbv beta in Hz. apply coordinate_bound_prints. lia.
    + eapply Forall_impl; [|exact Hst].
      intros z Hz. cbv beta in Hz. apply coordinate_bound_prints. lia.
  - apply coordinate_bound_prints. lia.
Qed.

(** X16: the loop body runs to its end on every line that parses to a
    valid isoform whose starts and ends are all at most [coordinate_bound]
    in absolute value: every integer of the record and the total length
    then has at most 4300 digits, so both [print] calls succeed; the record
    of the result is the one [output_isoform_as_bed] returns. *)
Theorem X16_main_isoform_completes (line : string) (isoform : Isoform) :
  parse_isoform_data (rstrip_newline line) = Ok isoform ->
  valid isoform ->
  Forall (fun z => Z.abs z <= coordinate_bound) (starts isoform) ->
  Forall (fun z => Z.abs z <= coordinate_bound) (ends isoform) ->
  exists o,
    main_isoform line = Ok o
    /\ output_isoform_as_bed isoform (rstrip_newline line)
       = Ok (isoform_bed o).
Proof.
  intros Hparse Hvalid Hss Hes.
  destruct (output_valid_folded line isoform Hparse Hvalid)
    as (r0 & rest & u0 & us & E & Eu & _ & _ & Hout).
  pose proof (exon_regions_valid isoform Hvalid) as Hv. rewrite E in Hv.
  pose proof (exon_regions_bounded isoform _ Hss Hes) as Hb. rewrite E in Hb.
  destruct (merged_spec r0 rest) as (Hso & _ & _).
  pose proof (merged_valid r0 rest Hv) as Hmv.
  assert (Hus : StronglySorted region_follows (u0 :: us)).
  { rewrite <- Eu. apply StronglySorted_map.
    eapply StronglySorted_impl; [|exact Hso]. intros a b H. exact H. }
  assert (Huv : Forall (fun r => r_start r <= r_end r) (u0 :: us)).
  { rewrite <- Eu. apply Forall_map.
    eapply Forall_impl; [|exact Hmv]. intros a H. exact H. }
  pose proof Hout as Hinit.
  rewrite (output_isoform_as_bed_valid _ _ Hvalid), E in Hinit.
  destruct (init_envelope _ _ _ _ _ Hinit) as (l0 & lrest & Hf & Hmin & Hmax).
  assert (Hstart : Z.abs (Bed.start (folded (u0 :: us) (rstrip_newline line)
                                            true u0 us))
                   <= coordinate_bound + 1).
  { rewrite Hf. cbn [folded Bed.start]. rewrite Hmin.
    pose proof (minimum_In (map start0 rest) (start0 r0)) as Hin.
    change (start0 r0 :: map start0 rest)
      with (map start0 (r0 :: rest)) in Hin.
    apply in_map_iff in Hin. destruct Hin as (r & <- & Hr).
    rewrite Forall_forall in Hb. destruct (Hb r Hr) as [H1 _].
    unfold start0. lia. }
  assert (Hend : Z.abs (Bed.end_ (folded (u0 :: us) (rstrip_newline line)
                                         true u0 us))
                 <= coordinate_bound).
  { rewrite Hf. cbn [folded Bed.end_]. rewrite Hmax.
    pose proof (maximum_In (map r_end rest) (r_end r0)) as Hin.
    change (r_end r0 :: map r_end rest) with (map r_end (r0 :: rest)) in Hin.
    apply in_map_iff in Hin. destruct Hin as (r & <- & Hr).
    rewrite Forall_forall in Hb. destruct (Hb r Hr) as [_ H2]. exact H2. }
  destruct (folded_prints (u0 :: us) (rstrip_newline line) true u0 us
              Hus Huv Hstart Hend) as [[txt Htxt] Hsum].
  destruct (list_to_str_total
              [Bed.FStr (rstrip_newline line);
               Bed.FInt (sum (Bed.block_sizes
                                (folded (u0 :: us) (rstrip_newline line)
                                        true u0 us)))]
              (String (ascii_of_nat 9) EmptyString)) as [row Hrow].
  { repeat constructor. exact Hsum. }
  unfold main_isoform. cbv zeta. rewrite Hparse. cbn [bind].
  rewrite Hout. cbn [bind]. rewrite Htxt. cbn [bind].
  rewrite Hrow. cbn [bind]. eexists. split; reflexivity.
Qed.

Lemma X16_main_isoform_completes_witness :
  exists o,
    main_isoform "chr3|25,45|30,60|-" = Ok o
    /\ output_isoform_as_bed (mkIsoform "chr3" [25; 45] [30; 60] "-")
                             (rstrip_newline "chr3|25,45|30,60|-")
       = Ok (isoform_bed o).
Proof.
  apply (X16_main_isoform_completes
           "chr3|25,45|30,60|-" (mkIsoform "chr3" [25; 45] [30; 60] "-")).
  - reflexivity.
  - split; [reflexivity|]. repeat constructor; cbn; lia.
  - repeat constructor; apply Z.lt_le_incl; reflexivity.
  - repeat constructor; apply Z.lt_le_incl; reflexivity.
Defined.
